(** * utm-manager: the cookie store and the UTM attribution engine

    A shallow embedding of [src/utils/cookie.ts], [src/utm.ts] and of the
    package entry point [src/index.ts] (it imports ["./utils/cookie"] and
    exports [configureAttribution], [saveUTMs], [getUTM] and [getUTMs]),
    followed by the properties of the specification that were checked
    against them.

    Conventions of the embedding.
    - A JavaScript string is a [string]: the sequence of bytes of its UTF-8
      encoding (the strings the program handles are well-formed Unicode).
    - A JavaScript number holding a count of days or of milliseconds is an
      integer of [Z].
    - [undefined] and [null] are [None]; an object key that may be missing
      from a [Partial<...>] argument is an outer [option].
    - Module-level [let]/[const] bindings that are mutated ([memoryStorage],
      [currentConfig]) and the host objects the code touches
      ([Date.now()], [document.cookie], [console.error]) are fields of an
      explicit state record that every operation threads through.
    - [setCookie] and [removeCookie] are modelled in a host in which an
      assignment to [document.cookie] completes normally; for
      [areCookiesEnabled], whose [try] is there for a host in which it
      throws, the setter of the host is an argument. The attribution
      callback is a function of its two arguments that returns a string or
      throws. *)

From Stdlib Require Import ZArith Ascii String List Bool Lia.
From Stdlib Require Import DecimalString.
From stdpp Require Import gmap strings.

Open Scope Z_scope.

(** ** The parts of the JavaScript platform that the program calls *)

Module JS.

(** The outcome of evaluating a call: a value, or a thrown error (we keep
    the error's message). *)
Inductive completion (A : Type) : Type :=
| Normal (a : A)
| Throw (message : string).
Arguments Normal {A} a.
Arguments Throw {A} message.

(** Stateful computations that may throw; the state survives a throw, as it
    does in JavaScript. *)
Definition M (S A : Type) : Type := S -> completion A * S.

Definition ret {S A} (a : A) : M S A := fun s => (Normal a, s).

Definition throw {S A} (message : string) : M S A := fun s => (Throw message, s).

Definition bind {S A B} (m : M S A) (k : A -> M S B) : M S B :=
  fun s =>
    match m s with
    | (Normal a, s') => k a s'
    | (Throw e, s') => (Throw e, s')
    end.

(** [try { body } catch (error) { handler(error) }] *)
Definition try_catch {S A} (body : M S A) (handler : string -> M S A) : M S A :=
  fun s =>
    match body s with
    | (Normal a, s') => (Normal a, s')
    | (Throw e, s') => handler e s'
    end.

Definition get {S} : M S S := fun s => (Normal s, s).

Definition modify {S} (f : S -> S) : M S unit := fun s => (Normal tt, f s).

(** [String.prototype.toLowerCase] on the ASCII letters. Bytes above 127
    are left alone: the lower-casing of a non-ASCII character is never a
    sequence of ASCII letters of the UTM parameter names. *)
Definition toLowerCase_char (c : ascii) : ascii :=
  let n := N_of_ascii c in
  if ((65 <=? n) && (n <=? 90))%N then ascii_of_N (n + 32) else c.

Fixpoint toLowerCase (s : string) : string :=
  match s with
  | EmptyString => EmptyString
  | String c s' => String (toLowerCase_char c) (toLowerCase s')
  end.

(** [s.startsWith(p)] *)
Definition startsWith (s p : string) : bool := String.prefix p s.

(** [s.includes(needle)] *)
Fixpoint includes (s needle : string) : bool :=
  String.prefix needle s ||
  match s with
  | EmptyString => false
  | String _ s' => includes s' needle
  end.

(** [encodeURIComponent]: every byte outside [A-Z a-z 0-9 - _ . ! ~ * ' ( )]
    becomes [%XX] with upper-case hexadecimal digits. *)
Definition unreserved (c : ascii) : bool :=
  let n := N_of_ascii c in
  (((65 <=? n) && (n <=? 90)) || ((97 <=? n) && (n <=? 122)) ||
   ((48 <=? n) && (n <=? 57)) ||
   (n =? 45) || (n =? 95) || (n =? 46) || (n =? 33) || (n =? 126) ||
   (n =? 42) || (n =? 39) || (n =? 40) || (n =? 41))%N.

Definition hex_digit (n : N) : ascii :=
  if (n <? 10)%N then ascii_of_N (48 + n) else ascii_of_N (55 + n).

Definition percent_escape (c : ascii) : string :=
  let n := N_of_ascii c in
  String "%" (String (hex_digit (n / 16)) (String (hex_digit (n mod 16)) EmptyString)).

Fixpoint encodeURIComponent (s : string) : string :=
  match s with
  | EmptyString => EmptyString
  | String c s' =>
      (if unreserved c then String c EmptyString else percent_escape c)
      +:+ encodeURIComponent s'
  end.

(** [Date.prototype.toUTCString] of [new Date(t)], [t] in milliseconds
    since the epoch (ECMAScript: TimeClip, Day, WeekDay, YearFromTime,
    MonthFromTime, DateFromTime, and the [Www, DD Mmm YYYY HH:MM:SS GMT]
    layout). *)
Definition msPerDay : Z := 86400000.

Definition Day (t : Z) : Z := t / msPerDay.

Definition TimeWithinDay (t : Z) : Z := t mod msPerDay.

Definition WeekDay (t : Z) : Z := (Day t + 4) mod 7.

(** Year, month (1..12) and day of the month (1..31) of a day number in the
    proleptic Gregorian calendar. *)
Definition civil_from_days (d : Z) : Z * Z * Z :=
  let z := d + 719468 in
  let era := z / 146097 in
  let doe := z mod 146097 in
  let yoe := (doe - doe / 1460 + doe / 36524 - doe / 146096) / 365 in
  let doy := doe - (365 * yoe + yoe / 4 - yoe / 100) in
  let mp := (5 * doy + 2) / 153 in
  let dd := doy - (153 * mp + 2) / 5 + 1 in
  let mm := if mp <? 10 then mp + 3 else mp - 9 in
  let yy := yoe + era * 400 + (if mm <=? 2 then 1 else 0) in
  (yy, mm, dd).

Definition day_name (w : Z) : string :=
  nth (Z.to_nat w) ["Sun"; "Mon"; "Tue"; "Wed"; "Thu"; "Fri"; "Sat"] "".

Definition month_name (m : Z) : string :=
  nth (Z.to_nat (m - 1))
    ["Jan"; "Feb"; "Mar"; "Apr"; "May"; "Jun";
     "Jul"; "Aug"; "Sep"; "Oct"; "Nov"; "Dec"] "".

Definition decimal (n : Z) : string :=
  NilZero.string_of_uint (N.to_uint (Z.to_N n)).

Fixpoint zeros (k : nat) : string :=
  match k with
  | O => EmptyString
  | S k' => String "0" (zeros k')
  end.

(** ToZeroPaddedDecimalString *)
Definition padded (n : Z) (width : nat) : string :=
  let s := decimal n in
  zeros (width - String.length s) +:+ s.

Definition toUTCString (t : Z) : string :=
  if (Z.abs t <=? 8640000000000000) then
    let '(yy, mm, dd) := civil_from_days (Day t) in
    let tod := TimeWithinDay t in
    day_name (WeekDay t) +:+ ", " +:+ padded dd 2 +:+ " " +:+ month_name mm +:+ " " +:+
    (if yy <? 0 then "-" else "") +:+ padded (Z.abs yy) 4 +:+ " " +:+
    padded (tod / 3600000) 2 +:+ ":" +:+ padded (tod / 60000 mod 60) 2 +:+ ":" +:+
    padded (tod / 1000 mod 60) 2 +:+ " GMT"
  else "Invalid Date".

End JS.

(** stdpp's monad notations: [x ← m; k] and [m ;; k]. *)
#[global] Instance M_ret {S} : MRet (JS.M S) := @JS.ret S.
#[global] Instance M_bind {S} : MBind (JS.M S) := fun A B k m => JS.bind m k.

(** ** [src/utils/cookie.ts]: the cookie store *)

Module Cookie.

Inductive SameSite : Type := Strict | Lax | None_.

Definition SameSite_text (p : SameSite) : string :=
  match p with
  | Strict => "Strict"
  | Lax => "Lax"
  | None_ => "None"
  end.

(** [interface CookieOptions] *)
Record CookieOptions : Type := {
  days : Z;
  domain : option string;
  path : option string;
  secure : option bool;
  sameSite : option SameSite;
}.

(** [Partial<CookieOptions>]: [None] is a key that the object literal does
    not have; a key that is present may still hold [undefined]. *)
Record PartialCookieOptions : Type := {
  p_days : option Z;
  p_domain : option (option string);
  p_path : option (option string);
  p_secure : option (option bool);
  p_sameSite : option (option SameSite);
}.

(** [{}] *)
Definition no_options : PartialCookieOptions :=
  {| p_days := None; p_domain := None; p_path := None;
     p_secure := None; p_sameSite := None |}.

Definition DEFAULT_OPTIONS : CookieOptions :=
  {| days := 30; domain := None; path := Some "/";
     secure := Some true; sameSite := Some Lax |}.

(** [{ ...base, ...over }] *)
Definition spread (base : CookieOptions) (over : PartialCookieOptions) : CookieOptions :=
  {| days := default (days base) (p_days over);
     domain := default (domain base) (p_domain over);
     path := default (path base) (p_path over);
     secure := default (secure base) (p_secure over);
     sameSite := default (sameSite base) (p_sameSite over) |}.

(** [interface StoredCookie] *)
Record StoredCookie : Type := {
  value : string;
  options : CookieOptions;
}.

(** What a call of [console.error(label, error)] prints. *)
Record ConsoleError : Type := {
  label : string;
  error : string;
}.

(** The state the module reads and writes. *)
Record World : Type := {
  (** [Date.now()], in milliseconds since the epoch *)
  Date_now : Z;
  (** [const memoryStorage = new Map<string, StoredCookie>()] *)
  memoryStorage : gmap string StoredCookie;
  (** [None] when [typeof document === "undefined"]; otherwise the strings
      assigned to [document.cookie] so far, the latest first *)
  document_cookie : option (list string);
  (** the calls of [console.error] so far, the latest first *)
  console : list ConsoleError;
}.

Definition with_memoryStorage (w : World) (m : gmap string StoredCookie) : World :=
  {| Date_now := Date_now w; memoryStorage := m;
     document_cookie := document_cookie w; console := console w |}.

(** [if (typeof document !== "undefined") document.cookie = s] *)
Definition assign_document_cookie (w : World) (s : string) : World :=
  {| Date_now := Date_now w; memoryStorage := memoryStorage w;
     document_cookie := cons s <$> document_cookie w; console := console w |}.

Definition console_error (w : World) (l e : string) : World :=
  {| Date_now := Date_now w; memoryStorage := memoryStorage w;
     document_cookie := document_cookie w;
     console := {| label := l; error := e |} :: console w |}.

(** The simulated clock: the same world at time [t]. *)
Definition at_time (t : Z) (w : World) : World :=
  {| Date_now := t; memoryStorage := memoryStorage w;
     document_cookie := document_cookie w; console := console w |}.

(** JavaScript truthiness of the optional fields. *)
Definition truthy_string (o : option string) : bool :=
  match o with
  | Some s => negb (String.eqb s "")
  | None => false
  end.

Definition truthy_bool (o : option bool) : bool := default false o.

(** A template literal prints [undefined] for a missing value. *)
Definition template_text (o : option string) : string := default "undefined" o.

(** [new Date(Date.now() + options.days * 24 * 60 * 60 * 1000)] *)
Definition expires_at (now : Z) (o : CookieOptions) : Z :=
  now + days o * 24 * 60 * 60 * 1000.

Definition domain_segment (o : CookieOptions) : string :=
  if truthy_string (domain o) then "; domain=" +:+ template_text (domain o) else "".

Definition sameSite_segment (o : CookieOptions) : string :=
  match sameSite o with
  | Some p => "; samesite=" +:+ SameSite_text p
  | None => ""
  end.

Definition secure_segment (o : CookieOptions) : string :=
  if truthy_bool (secure o) then "; secure" else "".

Definition generateCookieString (now : Z) (name value : string) (o : CookieOptions) : string :=
  let expires := expires_at now o in
  let cookieString :=
    JS.encodeURIComponent name +:+ "=" +:+ JS.encodeURIComponent value +:+
    "; expires=" +:+ JS.toUTCString expires +:+ "; path=" +:+ template_text (path o) in
  let cookieString := cookieString +:+ domain_segment o in
  let cookieString := cookieString +:+ sameSite_segment o in
  let cookieString := cookieString +:+ secure_segment o in
  cookieString.

Definition setCookie (name value : string) (o : PartialCookieOptions) (w : World) : World :=
  let opts := spread DEFAULT_OPTIONS o in
  let cookieString := generateCookieString (Date_now w) name value opts in
  let w := with_memoryStorage w
             (<[name := {| value := value; options := opts |}]> (memoryStorage w)) in
  assign_document_cookie w cookieString.

Definition getCookie (name : string) (w : World) : option string :=
  match memoryStorage w !! name with
  | Some stored => Some (value stored)
  | None => None
  end.

(** [{ ...opts, days: -1 }] *)
Definition with_days (o : CookieOptions) (d : Z) : CookieOptions :=
  {| days := d; domain := domain o; path := path o;
     secure := secure o; sameSite := sameSite o |}.

Definition removeCookie (name : string) (o : PartialCookieOptions) (w : World) : World :=
  let opts := spread DEFAULT_OPTIONS o in
  let w := with_memoryStorage w (delete name (memoryStorage w)) in
  assign_document_cookie w
    (generateCookieString (Date_now w) name "" (with_days opts (-1))).

(** The setter of [document.cookie] in the host: an assignment completes,
    or it throws (a document that is not allowed to use cookies).
    [areCookiesEnabled] is the one function of the module that provides for
    the second case, with its [try]. *)
Inductive Setter : Type :=
| completes
| throws (error : string).

(** [if (typeof document !== "undefined") document.cookie = s] with the
    given setter. *)
Definition assign_in (h : Setter) (s : string) : JS.M World unit :=
  fun w =>
    match document_cookie w, h with
    | Some _, throws e => (JS.Throw e, w)
    | _, _ => (JS.Normal tt, assign_document_cookie w s)
    end.

(** The run of [setCookie] with the given setter: the entry is put into
    [memoryStorage] before the assignment is attempted. *)
Definition setCookie_in (h : Setter) (name value : string)
    (o : PartialCookieOptions) : JS.M World unit :=
  fun w =>
    let opts := spread DEFAULT_OPTIONS o in
    let cookieString := generateCookieString (Date_now w) name value opts in
    let w := with_memoryStorage w
               (<[name := {| value := value; options := opts |}]> (memoryStorage w)) in
    assign_in h cookieString w.

(** The run of [removeCookie] with the given setter. *)
Definition removeCookie_in (h : Setter) (name : string)
    (o : PartialCookieOptions) : JS.M World unit :=
  fun w =>
    let opts := spread DEFAULT_OPTIONS o in
    let w := with_memoryStorage w (delete name (memoryStorage w)) in
    assign_in h (generateCookieString (Date_now w) name "" (with_days opts (-1))) w.

(** [try { ... return result } catch { return false }] *)
Definition areCookiesEnabled (h : Setter) : JS.M World bool :=
  JS.try_catch
    (setCookie_in h "__test__" "1" no_options;;
     w ← JS.get;
     let result := bool_decide (getCookie "__test__" w = Some "1") in
     removeCookie_in h "__test__" no_options;;
     mret result)
    (fun _ => mret false).

(** [/^[\u0021\u0023-\u002B\u002D-\u003A\u003C-\u005B\u005D-\u007E]+$/] *)
Definition valid_name_char (c : ascii) : bool :=
  let n := N_of_ascii c in
  ((n =? 33) || ((35 <=? n) && (n <=? 43)) || ((45 <=? n) && (n <=? 58)) ||
   ((60 <=? n) && (n <=? 91)) || ((93 <=? n) && (n <=? 126)))%N.

Fixpoint all_chars (p : ascii -> bool) (s : string) : bool :=
  match s with
  | EmptyString => true
  | String c s' => p c && all_chars p s'
  end.

Definition isValidCookieName (name : string) : bool :=
  negb (String.eqb name "") && all_chars valid_name_char name.

(** [acc[name] = stored.value] on a fresh [{}]: every key becomes an own
    property, except ["__proto__"], whose assignment of a string is ignored
    by the setter inherited from [Object.prototype]. *)
Definition getAllCookies (w : World) : gmap string string :=
  value <$> delete "__proto__" (memoryStorage w).

End Cookie.

(** ** [src/utm.ts]: the attribution engine *)

Module Utm.

Inductive AttributionStrategy : Type := first | last | dynamic.

(** [(currentValue: string, newValue: string) => string]; the call may
    throw. *)
Definition Callback : Type := string -> string -> JS.completion string.

(** [interface UTMConfig] *)
Record UTMConfig : Type := {
  attribution : AttributionStrategy;
  expirationDays : Z;
  domain : option string;
  path : option string;
  secure : option bool;
  sameSite : option Cookie.SameSite;
  attributionCallback : option Callback;
}.

(** [Partial<UTMConfig>] *)
Record PartialUTMConfig : Type := {
  p_attribution : option AttributionStrategy;
  p_expirationDays : option Z;
  p_domain : option (option string);
  p_path : option (option string);
  p_secure : option (option bool);
  p_sameSite : option (option Cookie.SameSite);
  p_attributionCallback : option (option Callback);
}.

Definition DEFAULT_CONFIG : UTMConfig :=
  {| attribution := last; expirationDays := 30; domain := None;
     path := Some "/"; secure := Some true; sameSite := Some Cookie.Lax;
     attributionCallback := None |}.

(** The module state: the cookie module's world and [let currentConfig]. *)
Record State : Type := {
  world : Cookie.World;
  currentConfig : UTMConfig;
}.

Definition with_world (f : Cookie.World -> Cookie.World) (st : State) : State :=
  {| world := f (world st); currentConfig := currentConfig st |}.

Definition UTM_PREFIX : string := "utm_".

Definition VALID_UTM_PARAMS : list string :=
  ["utm_source"; "utm_medium"; "utm_campaign"; "utm_term"; "utm_content"].

Definition isValidUTMParam (param : string) : bool :=
  bool_decide (JS.toLowerCase param ∈ VALID_UTM_PARAMS).

Definition call (cb : Callback) (currentValue newValue : string) : JS.M State string :=
  fun st => (cb currentValue newValue, st).

Definition shouldSaveUTM (key value : string) : JS.M State bool :=
  st ← JS.get;
  let currentValue := Cookie.getCookie key (world st) in
  match attribution (currentConfig st) with
  | first => mret (bool_decide (currentValue = None))
  | last => mret true
  | dynamic =>
      match attributionCallback (currentConfig st) with
      | None => mret true
      | Some cb =>
          JS.try_catch
            (shouldSave ← call cb (default "" currentValue) value;
             mret (bool_decide (shouldSave = value)))
            (fun error =>
               JS.modify (with_world (fun w =>
                 Cookie.console_error w "Error in attribution callback:" error));;
               mret false)
      end
  end.

(** [{ ...DEFAULT_CONFIG, ...config }] *)
Definition configureUTM (config : PartialUTMConfig) : JS.M State unit :=
  JS.modify (fun st =>
    {| world := world st;
       currentConfig :=
         {| attribution := default (attribution DEFAULT_CONFIG) (p_attribution config);
            expirationDays := default (expirationDays DEFAULT_CONFIG) (p_expirationDays config);
            domain := default (domain DEFAULT_CONFIG) (p_domain config);
            path := default (path DEFAULT_CONFIG) (p_path config);
            secure := default (secure DEFAULT_CONFIG) (p_secure config);
            sameSite := default (sameSite DEFAULT_CONFIG) (p_sameSite config);
            attributionCallback :=
              default (attributionCallback DEFAULT_CONFIG) (p_attributionCallback config) |} |}).

Definition prefix_error (key : string) : string :=
  "Invalid UTM parameter: " +:+ key +:+ ". UTM parameters must start with 'utm_'".

Definition whitelist_error (key : string) : string :=
  "Invalid UTM parameter: " +:+ key +:+ ". Must be one of: " +:+
  String.concat ", " VALID_UTM_PARAMS.

(** The object literal [cookieOptions] of [saveUTM]: all five keys are
    present. *)
Definition cookieOptions (c : UTMConfig) : Cookie.PartialCookieOptions :=
  {| Cookie.p_days := Some (expirationDays c);
     Cookie.p_domain := Some (domain c);
     Cookie.p_path := Some (path c);
     Cookie.p_secure := Some (secure c);
     Cookie.p_sameSite := Some (sameSite c) |}.

Definition saveUTM (key value : string) : JS.M State unit :=
  if negb (JS.startsWith key UTM_PREFIX) then JS.throw (prefix_error key)
  else if negb (isValidUTMParam key) then JS.throw (whitelist_error key)
  else
    save ← shouldSaveUTM key value;
    if save : bool then
      st ← JS.get;
      JS.modify (with_world (Cookie.setCookie key value (cookieOptions (currentConfig st))))
    else mret tt.

Definition getUTM (key : string) : JS.M State (option string) :=
  if negb (JS.startsWith key UTM_PREFIX) then JS.throw (prefix_error key)
  else if negb (isValidUTMParam key) then JS.throw (whitelist_error key)
  else
    st ← JS.get;
    mret (Cookie.getCookie key (world st)).

(** The test of the [reduce] callback of [getUTMs]. *)
Definition is_utm_entry (entry : string * string) : bool :=
  JS.startsWith entry.1 UTM_PREFIX && isValidUTMParam entry.1.

Definition getUTMs (st : State) : gmap string string :=
  filter (fun entry => is_utm_entry entry) (Cookie.getAllCookies (world st)).

(** [Array.prototype.forEach] *)
Fixpoint forEach {S A} (f : A -> JS.M S unit) (l : list A) : JS.M S unit :=
  match l with
  | [] => mret tt
  | x :: l' => f x;; forEach f l'
  end.

(** [params] is given by [Object.entries(params)]. *)
Definition saveUTMs (params : list (string * string)) : JS.M State unit :=
  forEach
    (fun '(key, value) =>
       JS.try_catch (saveUTM key value)
         (fun error =>
            JS.modify (with_world (fun w =>
              Cookie.console_error w ("Error saving UTM parameter " +:+ key +:+ ":") error))))
    params.

End Utm.

(** ** [src/index.ts]: the package entry point *)

Module Index.

Import Utm (AttributionStrategy, first, last, dynamic, Callback).

(** [interface UTMConfig] *)
Record UTMConfig : Type := {
  attribution : AttributionStrategy;
  expirationDays : Z;
  domain : option string;
  attributionCallback : option Callback;
}.

(** [Partial<UTMConfig>] *)
Record PartialUTMConfig : Type := {
  p_attribution : option AttributionStrategy;
  p_expirationDays : option Z;
  p_domain : option (option string);
  p_attributionCallback : option (option Callback);
}.

Definition defaultConfig : UTMConfig :=
  {| attribution := last; expirationDays := 30; domain := None;
     attributionCallback := None |}.

Record State : Type := {
  world : Cookie.World;
  currentConfig : UTMConfig;
}.

Definition with_world (f : Cookie.World -> Cookie.World) (st : State) : State :=
  {| world := f (world st); currentConfig := currentConfig st |}.

Definition validParams : list string :=
  ["utm_source"; "utm_medium"; "utm_campaign"; "utm_term"; "utm_content"].

Definition dquote : string := String (ascii_of_N 34) EmptyString.

Definition validateUTMKey (utm_key : string) : JS.M State unit :=
  if negb (JS.startsWith utm_key "utm_") then
    JS.throw ("UTM parameter key must start with " +:+ dquote +:+ "utm_" +:+ dquote)
  else if negb (bool_decide (JS.toLowerCase utm_key ∈ validParams)) then
    JS.throw ("Invalid UTM parameter: " +:+ utm_key +:+ ". Must be one of: " +:+
              String.concat ", " validParams)
  else mret tt.

Definition call (cb : Callback) (currentValue newValue : string) : JS.M State string :=
  fun st => (cb currentValue newValue, st).

Definition shouldSaveUTM (currentValue : option string) (newValue : string) : JS.M State bool :=
  st ← JS.get;
  match attribution (currentConfig st) with
  | first => mret (bool_decide (currentValue = None))
  | last => mret true
  | dynamic =>
      match attributionCallback (currentConfig st) with
      | None => mret true
      | Some cb =>
          JS.try_catch
            (r ← call cb (default "" currentValue) newValue;
             mret (bool_decide (r = newValue)))
            (fun error =>
               JS.modify (with_world (fun w =>
                 Cookie.console_error w "Error in attribution callback:" error));;
               mret false)
      end
  end.

(** [days || expirationDays]: a missing [days] and the number zero are
    both falsy. *)
Definition days_or (days : option Z) (expirationDays : Z) : Z :=
  match days with
  | Some d => if d =? 0 then expirationDays else d
  | None => expirationDays
  end.

(** The object literal [cookieOptions] of [saveUTMs]: it has no [path]
    key. *)
Definition cookieOptions (c : UTMConfig) (days : option Z) : Cookie.PartialCookieOptions :=
  {| Cookie.p_days := Some (days_or days (expirationDays c));
     Cookie.p_domain := Some (domain c);
     Cookie.p_path := None;
     Cookie.p_secure := Some (Some true);
     Cookie.p_sameSite := Some (Some Cookie.Lax) |}.

Definition saveUTMs (utm_key utm_value : string) (days : option Z) : JS.M State unit :=
  validateUTMKey utm_key;;
  st ← JS.get;
  let currentValue := Cookie.getCookie utm_key (world st) in
  save ← shouldSaveUTM currentValue utm_value;
  if save : bool then
    st ← JS.get;
    JS.modify (with_world
      (Cookie.setCookie utm_key utm_value (cookieOptions (currentConfig st) days)))
  else mret tt.

Definition getUTMs (st : State) : gmap string string :=
  filter (fun entry : string * string => JS.startsWith entry.1 "utm_")
    (Cookie.getAllCookies (world st)).

(** [return value || undefined]: the empty string is falsy. *)
Definition getUTM (utm_key : string) : JS.M State (option string) :=
  validateUTMKey utm_key;;
  st ← JS.get;
  match Cookie.getCookie utm_key (world st) with
  | Some v => mret (if String.eqb v "" then None else Some v)
  | None => mret None
  end.

(** [{ ...defaultConfig, ...config, attribution: strategy }] *)
Definition configureAttribution (strategy : AttributionStrategy)
    (config : PartialUTMConfig) : JS.M State unit :=
  JS.modify (fun st =>
    {| world := world st;
       currentConfig :=
         {| attribution := strategy;
            expirationDays := default (expirationDays defaultConfig) (p_expirationDays config);
            domain := default (domain defaultConfig) (p_domain config);
            attributionCallback :=
              default (attributionCallback defaultConfig) (p_attributionCallback config) |} |}).

End Index.

(** ** Concrete worlds and policies used by the examples *)

Module Scenario.

(** A browser page at the epoch with nothing stored. *)
Definition empty_world : Cookie.World :=
  {| Cookie.Date_now := 0; Cookie.memoryStorage := ∅;
     Cookie.document_cookie := Some []; Cookie.console := [] |}.

(** [{ days: d }] *)
Definition ttl (d : Z) : Cookie.PartialCookieOptions :=
  {| Cookie.p_days := Some d; Cookie.p_domain := None; Cookie.p_path := None;
     Cookie.p_secure := None; Cookie.p_sameSite := None |}.

(** The engine of [utm.ts] right after the module is loaded. *)
Definition fresh : Utm.State :=
  {| Utm.world := empty_world; Utm.currentConfig := Utm.DEFAULT_CONFIG |}.

Definition with_strategy (s : Utm.AttributionStrategy)
    (cb : option Utm.Callback) : Utm.State :=
  {| Utm.world := empty_world;
     Utm.currentConfig :=
       {| Utm.attribution := s; Utm.expirationDays := 30; Utm.domain := None;
          Utm.path := Some "/"; Utm.secure := Some true;
          Utm.sameSite := Some Cookie.Lax; Utm.attributionCallback := cb |} |}.

(** [(current, newValue) => newValue.includes("google") ? newValue : current] *)
Definition prefer_google : Utm.Callback :=
  fun current newValue =>
    JS.Normal (if JS.includes newValue "google" then newValue else current).

(** [() => { throw new Error("boom") }] *)
Definition failing : Utm.Callback := fun _ _ => JS.Throw "boom".

(** The entry point of [index.ts] right after the module is loaded. *)
Definition fresh_index : Index.State :=
  {| Index.world := empty_world; Index.currentConfig := Index.defaultConfig |}.

End Scenario.

(** ** Vocabulary of the statements *)

(** The guard that [saveUTM], [getUTM] and [getUTMs] of [utm.ts] apply to a
    key: the literal prefix, then the lower-cased name against the list. *)
Definition accepted (key : string) : bool :=
  JS.startsWith key Utm.UTM_PREFIX && Utm.isValidUTMParam key.

(** The state after [saveUTM] has called [setCookie] for [key]. *)
Definition written (key value : string) (st : Utm.State) : Utm.State :=
  Utm.with_world
    (Cookie.setCookie key value (Utm.cookieOptions (Utm.currentConfig st))) st.

(** The state after a [console.error] of the engine. *)
Definition reported (l e : string) (st : Utm.State) : Utm.State :=
  Utm.with_world (fun w => Cookie.console_error w l e) st.

(** The message of the error that the guard throws for a rejected key. *)
Definition rejection (key : string) : string :=
  if JS.startsWith key Utm.UTM_PREFIX then Utm.whitelist_error key
  else Utm.prefix_error key.

(** The state after [saveUTMs] has caught and printed the rejection of
    [key]. *)
Definition rejection_reported (key : string) (st : Utm.State) : Utm.State :=
  reported ("Error saving UTM parameter " +:+ key +:+ ":") (rejection key) st.

(** Two states that agree on the stored entries, on [document.cookie], on
    the clock and on the policy; they may differ in what [console.error]
    has printed. *)
Definition same_store (st st' : Utm.State) : Prop :=
  Cookie.memoryStorage (Utm.world st) = Cookie.memoryStorage (Utm.world st')
  ∧ Cookie.document_cookie (Utm.world st) = Cookie.document_cookie (Utm.world st')
  ∧ Cookie.Date_now (Utm.world st) = Cookie.Date_now (Utm.world st')
  ∧ Utm.currentConfig st = Utm.currentConfig st'.

(** Whether an assignment to [document.cookie] throws: there is a document
    and its setter throws. *)
Definition setter_rejects (h : Cookie.Setter) (w : Cookie.World) : bool :=
  match Cookie.document_cookie w, h with
  | Some _, Cookie.throws _ => true
  | _, _ => false
  end.

(** The characters a cookie name or value must not carry unescaped:
    controls and whitespace, the double quote, comma, semicolon, backslash
    and the equals sign. *)
Definition separator (c : ascii) : bool :=
  let n := N_of_ascii c in
  ((n <=? 32) || (n =? 127) || (n =? 34) || (n =? 44) || (n =? 59) ||
   (n =? 92) || (n =? 61))%N.

(** ** Reading a cookie string back *)

(** The value of a hexadecimal digit. *)
Definition hex_value (c : ascii) : option N :=
  let n := N_of_ascii c in
  if ((48 <=? n) && (n <=? 57))%N then Some (n - 48)%N
  else if ((65 <=? n) && (n <=? 70))%N then Some (n - 55)%N
  else if ((97 <=? n) && (n <=? 102))%N then Some (n - 87)%N
  else None.

(** The reading of a percent-encoded text: [%XX] is the byte [XX], any
    other character is itself; a [%] without two hexadecimal digits after
    it has no reading. *)
Fixpoint percent_decode (s : string) : option string :=
  match s with
  | EmptyString => Some EmptyString
  | String c rest =>
      if Ascii.eqb c "%" then
        match rest with
        | String a (String b rest') =>
            match hex_value a, hex_value b, percent_decode rest' with
            | Some x, Some y, Some r => Some (String (ascii_of_N (16 * x + y)) r)
            | _, _, _ => None
            end
        | _ => None
        end
      else option_map (String c) (percent_decode rest)
  end.

(** The pieces of a text between the occurrences of a character. *)
Fixpoint split_on (sep : ascii) (s : string) : list string :=
  match s with
  | EmptyString => [EmptyString]
  | String c rest =>
      if Ascii.eqb c sep then EmptyString :: split_on sep rest
      else
        match split_on sep rest with
        | piece :: pieces => String c piece :: pieces
        | [] => [String c EmptyString]
        end
  end.

(** The name and the value that a reader of a cookie string finds: the text
    up to the first semicolon, cut at its equals sign, both sides
    percent-decoded. *)
Definition read_pair (cookieString : string) : option (string * string) :=
  match split_on ";" cookieString with
  | first :: _ =>
      match split_on "=" first with
      | [name; value] =>
          match percent_decode name, percent_decode value with
          | Some n, Some v => Some (n, v)
          | _, _ => None
          end
      | _ => None
      end
  | [] => None
  end.

(** The attributes that such a reader finds: the pieces after the first
    semicolon. *)
Definition read_attributes (cookieString : string) : list string :=
  tail (split_on ";" cookieString).

(** The attributes that [generateCookieString] writes after the pair, each
    with the space that follows its semicolon. *)
Definition written_attributes (now : Z) (o : Cookie.CookieOptions) : list string :=
  [" expires=" +:+ JS.toUTCString (now + Cookie.days o * 86400 * 1000);
   " path=" +:+ default "undefined" (Cookie.path o)]
  ++ match Cookie.domain o with
     | Some d => if String.eqb d "" then [] else [" domain=" +:+ d]
     | None => []
     end
  ++ match Cookie.sameSite o with
     | Some Cookie.Strict => [" samesite=Strict"]
     | Some Cookie.Lax => [" samesite=Lax"]
     | Some Cookie.None_ => [" samesite=None"]
     | None => []
     end
  ++ match Cookie.secure o with
     | Some true => [" secure"]
     | _ => []
     end.

(** A text without a given character. *)
Definition lacks (c : ascii) (s : string) : bool :=
  Cookie.all_chars (fun x => negb (Ascii.eqb x c)) s.

(** The characters of a date printed by [toUTCString]. *)
Definition date_char (c : ascii) : bool :=
  let n := N_of_ascii c in
  (((65 <=? n) && (n <=? 90)) || ((97 <=? n) && (n <=? 122)) ||
   ((48 <=? n) && (n <=? 57)) ||
   (n =? 32) || (n =? 44) || (n =? 58) || (n =? 45))%N.

(** A control character; the line breaks are among them. *)
Definition control (c : ascii) : bool :=
  let n := N_of_ascii c in ((n <? 32) || (n =? 127))%N.

(** A text that fits on one line. *)
Definition single_line (s : string) : bool :=
  Cookie.all_chars (fun c => negb (control c)) s.

(** ** The calendar of ECMAScript and the HTTP-date layout *)

(** [DayFromYear(y)]: the day number of the first day of year [y]. *)
Definition DayFromYear (y : Z) : Z :=
  365 * (y - 1970) + (y - 1969) / 4 - (y - 1901) / 100 + (y - 1601) / 400.

(** [InLeapYear] *)
Definition leap_year (y : Z) : bool :=
  (y mod 4 =? 0) && (negb (y mod 100 =? 0) || (y mod 400 =? 0)).

(** The number of days of the year before month [m] (1..12). *)
Definition days_before_month (leap : bool) (m : Z) : Z :=
  nth (Z.to_nat (m - 1)) [0; 31; 59; 90; 120; 151; 181; 212; 243; 273; 304; 334] 0
  + (if leap && (2 <? m) then 1 else 0).

(** The number of days of month [m] (1..12). *)
Definition days_in_month (leap : bool) (m : Z) : Z :=
  nth (Z.to_nat (m - 1)) [31; 28; 31; 30; 31; 30; 31; 31; 30; 31; 30; 31] 0
  + (if leap && (m =? 2) then 1 else 0).

(** Whether the year, month and day that [civil_from_days] computes for
    day number [z] are those of the ECMAScript calendar: the year is the
    one whose days include [z], and month and day count on from its first
    day. *)
Definition calendar_agrees (z : Z) : bool :=
  let '(y, m, d) := JS.civil_from_days z in
  (1 <=? m) && (m <=? 12) && (1 <=? d) && (d <=? days_in_month (leap_year y) m) &&
  (DayFromYear y <=? z) && (z <? DayFromYear (y + 1)) &&
  (DayFromYear y + days_before_month (leap_year y) m + (d - 1) =? z).

(** The [n] integers from [start] on. *)
Fixpoint count_from (start : Z) (n : nat) : list Z :=
  match n with
  | O => []
  | S n' => start :: count_from (start + 1) n'
  end.

(** The integers from 0 up to, not including, [n]. *)
Definition below (n : Z) : list Z := count_from 0 (Z.to_nat n).

Definition digit (d : Z) : ascii := ascii_of_N (48 + Z.to_N d).

Definition two_digits (n : Z) : string :=
  String (digit (n / 10)) (String (digit (n mod 10)) EmptyString).

Definition four_digits (n : Z) : string :=
  two_digits (n / 100) +:+ two_digits (n mod 100).

(** The IMF-fixdate of HTTP: [Www, DD Mmm YYYY HH:MM:SS GMT]. *)
Definition http_date (weekday day month year hour minute second : Z) : string :=
  JS.day_name weekday +:+ ", " +:+ two_digits day +:+ " " +:+
  JS.month_name month +:+ " " +:+ four_digits year +:+ " " +:+
  two_digits hour +:+ ":" +:+ two_digits minute +:+ ":" +:+ two_digits second +:+
  " GMT".

(** The instants of the years 0000 to 9999, in milliseconds. *)
Definition first_instant : Z := -62167219200000.
Definition last_instant : Z := 253402300799999.

(** A path that ends with a line feed. *)
Definition line_break_path : string := String "/" (String (ascii_of_N 10) EmptyString).

(** Options for the examples of the serialized form. *)
Definition plain_options (d : Z) : Cookie.CookieOptions :=
  {| Cookie.days := d; Cookie.domain := None; Cookie.path := Some "/";
     Cookie.secure := None; Cookie.sameSite := None |}.

Definition full_options : Cookie.CookieOptions :=
  {| Cookie.days := 1; Cookie.domain := Some ".example.com"; Cookie.path := Some "/";
     Cookie.secure := Some true; Cookie.sameSite := Some Cookie.Strict |}.

Definition with_domain (dom : string) (sec : bool) : Cookie.CookieOptions :=
  {| Cookie.days := 1; Cookie.domain := Some dom; Cookie.path := Some "/";
     Cookie.secure := Some sec; Cookie.sameSite := None |}.

Definition with_path (p : string) : Cookie.CookieOptions :=
  {| Cookie.days := 1; Cookie.domain := None; Cookie.path := Some p;
     Cookie.secure := None; Cookie.sameSite := None |}.

(** ** [src/utils/cookie.ts]: the JSON convenience pair *)

Module CookieJson.

Section Json.

(** The type [T] of the data, and the two platform functions the pair
    calls: [JSON.parse(text)], which returns the parsed data ([None] for
    the JSON text [null]) or throws, and [JSON.stringify(value)] on data. *)
Variable T : Type.
Variable JSON_parse : string -> JS.completion (option T).
Variable JSON_stringify : T -> string.

Definition getJSONCookie (name : string) (w : Cookie.World) : option T :=
  match Cookie.getCookie name w with
  | None => None
  | Some value =>
      match JSON_parse value with
      | JS.Normal parsed => parsed
      | JS.Throw _ => None
      end
  end.

Definition setJSONCookie (name : string) (value : T)
    (o : Cookie.PartialCookieOptions) (w : Cookie.World) : Cookie.World :=
  Cookie.setCookie name (JSON_stringify value) o w.

End Json.

End CookieJson.

(** ** The standalone build: the [UTMManager] object over the entry point *)

Module Umd.

(** The state of the page: the entry point's state, the query of the page
    and the events dispatched on [window]. *)
Record State : Type := {
  index : Index.State;
  (** [None] when [typeof window === "undefined"]; otherwise the entries of
      [new URLSearchParams(window.location.search)], in their order *)
  window_search : option (list (string * string));
  (** the [detail] of each [utmParametersUpdated] event dispatched so far,
      the latest first *)
  dispatched : list (gmap string string);
}.

(** A call into the entry point. *)
Definition lift {A} (m : JS.M Index.State A) : JS.M State A :=
  fun st =>
    let '(r, i) := m (index st) in
    (r, {| index := i; window_search := window_search st;
           dispatched := dispatched st |}).

(** [options.attribution || "last"] *)
Definition configure (options : Index.PartialUTMConfig) : JS.M State unit :=
  let strategy := default Utm.last (Index.p_attribution options) in
  lift (Index.configureAttribution strategy options).

(** [saveUTMs(key, value, days || 30)] *)
Definition saveUTM (key value : string) (days : option Z) : JS.M State unit :=
  lift (Index.saveUTMs key value (Some (Index.days_or days 30))).

Definition getUTM (key : string) : JS.M State (option string) :=
  lift (Index.getUTM key).

Definition getAllUTMs (st : State) : gmap string string :=
  Index.getUTMs (index st).

(** The callback of [urlParams.forEach] with the local [captured]. *)
Fixpoint capture (urlParams : list (string * string)) (captured : bool)
    : JS.M State bool :=
  match urlParams with
  | [] => mret captured
  | (key, value) :: rest =>
      if JS.startsWith key "utm_" then
        saveUTM key value None;; capture rest true
      else capture rest captured
  end.

(** [window.dispatchEvent(new CustomEvent("utmParametersUpdated", { detail }))] *)
Definition dispatchEvent (detail : gmap string string) : JS.M State unit :=
  JS.modify (fun st =>
    {| index := index st; window_search := window_search st;
       dispatched := detail :: dispatched st |}).

Definition autoCapture : JS.M State bool :=
  st ← JS.get;
  match window_search st with
  | None => mret false
  | Some urlParams =>
      captured ← capture urlParams false;
      (if captured : bool then
         st' ← JS.get; dispatchEvent (getAllUTMs st')
       else mret tt);;
      mret captured
  end.

End Umd.

(** ** More concrete values for the examples *)

Module Fixture.

(** [JSON.parse] and [JSON.stringify] on the type of Booleans. *)
Definition parse_bool (text : string) : JS.completion (option bool) :=
  if String.eqb text "true" then JS.Normal (Some true)
  else if String.eqb text "false" then JS.Normal (Some false)
  else if String.eqb text "null" then JS.Normal None
  else JS.Throw "SyntaxError".

Definition stringify_bool (b : bool) : string := if b then "true" else "false".

(** A page opened with the query [?utm_source=google&ref=x&utm_medium=cpc]. *)
Definition landing : Umd.State :=
  {| Umd.index := Scenario.fresh_index;
     Umd.window_search :=
       Some [("utm_source", "google"); ("ref", "x"); ("utm_medium", "cpc")];
     Umd.dispatched := [] |}.

(** The same page opened with [?utm_source=google&utm_bogus=x&utm_medium=cpc]. *)
Definition landing_bogus : Umd.State :=
  {| Umd.index := Scenario.fresh_index;
     Umd.window_search :=
       Some [("utm_source", "google"); ("utm_bogus", "x"); ("utm_medium", "cpc")];
     Umd.dispatched := [] |}.

(** The engine of [utm.ts] with a first-touch policy and one stored entry. *)
Definition returning_visitor : Utm.State :=
  Utm.with_world (Cookie.setCookie "utm_source" "newsletter" Cookie.no_options)
    (Scenario.with_strategy Utm.first None).

End Fixture.

(** The entries of a batch whose key the guard rejects. *)
Definition rejected_entries (params : list (string * string)) : list (string * string) :=
  List.filter (fun entry => negb (accepted entry.1)) params.

(** The test that [autoCapture] applies to the key of a query entry. *)
Definition utm_prefixed (entry : string * string) : bool :=
  JS.startsWith entry.1 "utm_".

(** The character class of [isValidCookieName]: the printable ASCII range
    without the double quote, the comma, the semicolon and the backslash. *)
Definition name_char (c : ascii) : bool :=
  let n := N_of_ascii c in
  ((33 <=? n) && (n <=? 126) && negb (n =? 34) && negb (n =? 44) &&
   negb (n =? 59) && negb (n =? 92))%N.

(** An ASCII letter or the underscore. *)
Definition word_char (c : ascii) : bool :=
  let n := N_of_ascii c in
  (((65 <=? n) && (n <=? 90)) || ((97 <=? n) && (n <=? 122)) || (n =? 95))%N.

(** The five parameter names without their prefix. *)
Definition parameter_names : list string :=
  ["source"; "medium"; "campaign"; "term"; "content"].

(** The page state with the entry point's state replaced. *)
Definition with_index (st : Umd.State) (i : Index.State) : Umd.State :=
  {| Umd.index := i; Umd.window_search := Umd.window_search st;
     Umd.dispatched := Umd.dispatched st |}.

(** The entry point's state after [saveUTMs(key, value, 30)] has run, in
    order, on the query entries whose key starts with [utm_]. *)
Definition captured_index (urlParams : list (string * string)) (i : Index.State)
    : Index.State :=
  foldl (fun i entry => (Index.saveUTMs entry.1 entry.2 (Some 30) i).2) i
    (List.filter utm_prefixed urlParams).

(** The entry point of [index.ts] holding one cookie with an empty value. *)
Definition empty_valued : Index.State :=
  Index.with_world (Cookie.setCookie "utm_term" "" Cookie.no_options)
    Scenario.fresh_index.

(** The entry point configured with the dynamic strategy and the callback
    that prefers values containing [google]. *)
Definition dynamic_index : Index.State :=
  (Index.configureAttribution Utm.dynamic
     {| Index.p_attribution := None; Index.p_expirationDays := None;
        Index.p_domain := None;
        Index.p_attributionCallback := Some (Some Scenario.prefer_google) |}
     Scenario.fresh_index).2.

(** * Properties *)

(** Unfolding of the monad operations. *)
Ltac js_unfold :=
  unfold mbind, mret, M_bind, M_ret, JS.bind, JS.ret, JS.get, JS.modify,
    JS.throw, JS.try_catch, Utm.call, Index.call in *.

Example toUTCString_epoch : JS.toUTCString 0 = "Thu, 01 Jan 1970 00:00:00 GMT".
Proof. vm_compute. reflexivity. Qed.
Example toUTCString_2024 : JS.toUTCString 1709210096000 = "Thu, 29 Feb 2024 12:34:56 GMT".
Proof. vm_compute. reflexivity. Qed.
Example toUTCString_neg : JS.toUTCString (-1000) = "Wed, 31 Dec 1969 23:59:59 GMT".
Proof. vm_compute. reflexivity. Qed.
Example enc1 : JS.encodeURIComponent "a b;c=d" = "a%20b%3Bc%3Dd".
Proof. vm_compute. reflexivity. Qed.
Example low1 : JS.toLowerCase "UTM_Source" = "utm_source".
Proof. vm_compute. reflexivity. Qed.

(** ** The cookie store *)

Section CookieStore.

Implicit Types (w : Cookie.World) (name value : string).
Implicit Types (o : Cookie.PartialCookieOptions).

Lemma memoryStorage_setCookie name value o w :
  Cookie.memoryStorage (Cookie.setCookie name value o w) =
  <[name := {| Cookie.value := value;
               Cookie.options := Cookie.spread Cookie.DEFAULT_OPTIONS o |}]>
    (Cookie.memoryStorage w).
Proof. unfold Cookie.setCookie. destruct w as [? ? [?|] ?]; reflexivity. Qed.

Lemma memoryStorage_removeCookie name o w :
  Cookie.memoryStorage (Cookie.removeCookie name o w) =
  delete name (Cookie.memoryStorage w).
Proof. unfold Cookie.removeCookie. destruct w as [? ? [?|] ?]; reflexivity. Qed.

Lemma run_bind_cookie {A B} (m : JS.M Cookie.World A) (f : A → JS.M Cookie.World B) w :
  (m ≫= f) w =
  match m w with
  | (JS.Normal a, w') => f a w'
  | (JS.Throw e, w') => (JS.Throw e, w')
  end.
Proof. reflexivity. Qed.

Lemma document_cookie_setCookie_fmap name value o w :
  Cookie.document_cookie (Cookie.setCookie name value o w) =
  cons (Cookie.generateCookieString (Cookie.Date_now w) name value
          (Cookie.spread Cookie.DEFAULT_OPTIONS o))
    <$> Cookie.document_cookie w.
Proof. reflexivity. Qed.

Lemma getCookie_setCookie_eq name value o w :
  Cookie.getCookie name (Cookie.setCookie name value o w) = Some value.
Proof.
  unfold Cookie.getCookie. rewrite memoryStorage_setCookie.
  by rewrite lookup_insert_eq.
Qed.

Lemma getCookie_setCookie_ne name name' value o w :
  name ≠ name' →
  Cookie.getCookie name' (Cookie.setCookie name value o w) = Cookie.getCookie name' w.
Proof.
  intros Hne. unfold Cookie.getCookie. rewrite memoryStorage_setCookie.
  by rewrite lookup_insert_ne.
Qed.

Lemma getCookie_at_time t name w :
  Cookie.getCookie name (Cookie.at_time t w) = Cookie.getCookie name w.
Proof. reflexivity. Qed.

Lemma getCookie_removeCookie_eq name o w :
  Cookie.getCookie name (Cookie.removeCookie name o w) = None.
Proof.
  unfold Cookie.getCookie. rewrite memoryStorage_removeCookie.
  by rewrite lookup_delete_eq.
Qed.

(** [removeCookie] is idempotent: the key is absent after one call and
    after two. *)
Lemma removeCookie_idempotent name o o' w :
  Cookie.getCookie name (Cookie.removeCookie name o w) = None
  ∧ Cookie.getCookie name (Cookie.removeCookie name o' (Cookie.removeCookie name o w))
    = None
  ∧ Cookie.memoryStorage (Cookie.removeCookie name o' (Cookie.removeCookie name o w))
    = Cookie.memoryStorage (Cookie.removeCookie name o w).
Proof.
  split; [apply getCookie_removeCookie_eq|]. split; [apply getCookie_removeCookie_eq|].
  rewrite !memoryStorage_removeCookie. apply delete_delete_eq.
Qed.



Lemma setCookie_in_completes name value o w :
  Cookie.setCookie_in Cookie.completes name value o w =
  (JS.Normal tt, Cookie.setCookie name value o w).
Proof.
  unfold Cookie.setCookie_in, Cookie.assign_in, Cookie.setCookie.
  cbn [Cookie.with_memoryStorage Cookie.document_cookie].
  by destruct (Cookie.document_cookie w).
Qed.

Lemma removeCookie_in_completes name o w :
  Cookie.removeCookie_in Cookie.completes name o w =
  (JS.Normal tt, Cookie.removeCookie name o w).
Proof.
  unfold Cookie.removeCookie_in, Cookie.assign_in, Cookie.removeCookie.
  cbn [Cookie.with_memoryStorage Cookie.document_cookie].
  by destruct (Cookie.document_cookie w).
Qed.

(** C10, on the code: [areCookiesEnabled] never throws. Where the
    assignment to [document.cookie] completes (or there is no document) it
    answers [true] and leaves [memoryStorage] as it was with the key
    ["__test__"] deleted, as the claim says: every other entry is
    unchanged and a value stored under ["__test__"] before is gone. Where
    the setter throws, the [catch] arm answers [false] without removing the
    sentinel: [memoryStorage] is left with ["__test__"] holding ["1"], every
    other entry unchanged, and nothing assigned to [document.cookie]. *)
Theorem areCookiesEnabled_outcomes h w :
  (Cookie.areCookiesEnabled h w).1 = JS.Normal (negb (setter_rejects h w))
  ∧ Cookie.memoryStorage (Cookie.areCookiesEnabled h w).2 =
    (if setter_rejects h w then
       <["__test__" := {| Cookie.value := "1"; Cookie.options := Cookie.DEFAULT_OPTIONS |}]>
         (Cookie.memoryStorage w)
     else delete "__test__" (Cookie.memoryStorage w))
  ∧ (∀ name, Cookie.getCookie name (Cookie.areCookiesEnabled h w).2 =
             if decide (name = "__test__") then
               (if setter_rejects h w then Some "1" else None)
             else Cookie.getCookie name w)
  ∧ Cookie.console (Cookie.areCookiesEnabled h w).2 = Cookie.console w
  ∧ Cookie.document_cookie (Cookie.areCookiesEnabled h w).2 =
    (if setter_rejects h w then Cookie.document_cookie w
     else
       (λ l, Cookie.generateCookieString (Cookie.Date_now w) "__test__" ""
               (Cookie.with_days Cookie.DEFAULT_OPTIONS (-1))
             :: Cookie.generateCookieString (Cookie.Date_now w) "__test__" "1"
                  Cookie.DEFAULT_OPTIONS
             :: l) <$> Cookie.document_cookie w).
Proof.
  destruct (setter_rejects h w) eqn:Hr.
  - unfold setter_rejects in Hr.
    destruct (Cookie.document_cookie w) as [l|] eqn:Hd; [|discriminate].
    destruct h as [|e]; [discriminate|].
    assert (Hrun : Cookie.areCookiesEnabled (Cookie.throws e) w =
              (JS.Normal false,
               Cookie.with_memoryStorage w
                 (<["__test__" := {| Cookie.value := "1";
                                     Cookie.options := Cookie.DEFAULT_OPTIONS |}]>
                    (Cookie.memoryStorage w)))).
    { unfold Cookie.areCookiesEnabled, JS.try_catch. rewrite run_bind_cookie.
      unfold Cookie.setCookie_in, Cookie.assign_in.
      cbn [Cookie.with_memoryStorage Cookie.document_cookie]. rewrite Hd.
      reflexivity. }
    rewrite Hrun. cbn [fst snd negb Cookie.with_memoryStorage Cookie.memoryStorage
                       Cookie.console Cookie.document_cookie].
    split; [done|]. split; [done|]. split; [|done].
    intros name. unfold Cookie.getCookie, Cookie.with_memoryStorage.
    cbn [Cookie.memoryStorage].
    case_decide as Hn.
    + subst name. by rewrite lookup_insert_eq.
    + by rewrite lookup_insert_ne.
  - assert (Hrun : Cookie.areCookiesEnabled h w =
              (JS.Normal true,
               Cookie.removeCookie "__test__" Cookie.no_options
                 (Cookie.setCookie "__test__" "1" Cookie.no_options w))).
    { assert (Hset : ∀ name value o w',
                Cookie.document_cookie w' = Cookie.document_cookie w →
                Cookie.setCookie_in h name value o w' =
                (JS.Normal tt, Cookie.setCookie name value o w')).
      { intros name value o w' Hw'. unfold setter_rejects in Hr.
        unfold Cookie.setCookie_in, Cookie.assign_in, Cookie.setCookie.
        cbn [Cookie.with_memoryStorage Cookie.document_cookie]. rewrite Hw'.
        destruct (Cookie.document_cookie w); [|done]. by destruct h. }
      assert (Hrem : ∀ name o w',
                Cookie.document_cookie w' = None ↔ Cookie.document_cookie w = None →
                Cookie.removeCookie_in h name o w' =
                (JS.Normal tt, Cookie.removeCookie name o w')).
      { intros name o w' Hw'. unfold setter_rejects in Hr.
        unfold Cookie.removeCookie_in, Cookie.assign_in, Cookie.removeCookie.
        cbn [Cookie.with_memoryStorage Cookie.document_cookie].
        destruct (Cookie.document_cookie w') as [l'|] eqn:Hd'; [|done].
        destruct h as [|e]; [done|].
        destruct (Cookie.document_cookie w) as [l|]; [discriminate|].
        destruct Hw' as [_ Hw']. by specialize (Hw' eq_refl). }
      unfold Cookie.areCookiesEnabled, JS.try_catch.
      rewrite run_bind_cookie, (Hset _ _ _ w eq_refl).
      rewrite run_bind_cookie. unfold JS.get at 1. cbv iota.
      rewrite run_bind_cookie, Hrem.
      - rewrite getCookie_setCookie_eq. by rewrite bool_decide_eq_true_2.
      - rewrite document_cookie_setCookie_fmap.
        by destruct (Cookie.document_cookie w). }
    rewrite Hrun. cbn [fst snd negb].
    split; [done|]. split; [|split; [|split]].
    + rewrite memoryStorage_removeCookie, memoryStorage_setCookie.
      by rewrite delete_insert_eq.
    + intros name. unfold Cookie.getCookie at 1.
      rewrite memoryStorage_removeCookie, memoryStorage_setCookie, delete_insert_eq.
      case_decide as Hn.
      * subst name. by rewrite lookup_delete_eq.
      * by rewrite lookup_delete_ne.
    + by destruct w as [? ? [?|] ?].
    + by destruct w as [? ? [?|] ?].
Qed.

(** The probe in a page whose setter throws: it answers [false] and the
    sentinel stays readable. *)
Example areCookiesEnabled_setter_throws :
  (Cookie.areCookiesEnabled (Cookie.throws "SecurityError") Scenario.empty_world).1 =
    JS.Normal false
  ∧ Cookie.getCookie "__test__"
      (Cookie.areCookiesEnabled (Cookie.throws "SecurityError") Scenario.empty_world).2 =
    Some "1"
  ∧ Cookie.getAllCookies
      (Cookie.areCookiesEnabled (Cookie.throws "SecurityError") Scenario.empty_world).2 =
    {[ "__test__" := "1" ]}.
Proof. split; [reflexivity|]. split; [reflexivity|]. by vm_compute. Qed.

End CookieStore.

(** ** The serialized form *)

Section WireForm.

Lemma append_cons (c : ascii) (s1 s2 : string) :
  String c s1 +:+ s2 = String c (s1 +:+ s2).
Proof. reflexivity. Qed.

Lemma append_assoc (s1 s2 s3 : string) : (s1 +:+ s2) +:+ s3 = s1 +:+ s2 +:+ s3.
Proof.
  induction s1 as [|c s1 IH]; [reflexivity|].
  rewrite !append_cons. f_equal. exact IH.
Qed.

Lemma all_chars_app p s1 s2 :
  Cookie.all_chars p (s1 +:+ s2) = Cookie.all_chars p s1 && Cookie.all_chars p s2.
Proof.
  induction s1 as [|c s1 IH]; [reflexivity|].
  rewrite append_cons. simpl. rewrite IH. apply andb_assoc.
Qed.

Lemma unreserved_not_separator c : JS.unreserved c = true → separator c = false.
Proof. destruct c as [[] [] [] [] [] [] [] []]; vm_compute; congruence. Qed.

Lemma percent_escape_not_separator c :
  Cookie.all_chars (λ x, negb (separator x)) (JS.percent_escape c) = true.
Proof. destruct c as [[] [] [] [] [] [] [] []]; vm_compute; reflexivity. Qed.

Lemma encodeURIComponent_no_separator s :
  Cookie.all_chars (λ x, negb (separator x)) (JS.encodeURIComponent s) = true.
Proof.
  induction s as [|c s IH]; [reflexivity|].
  cbn [JS.encodeURIComponent].
  rewrite all_chars_app, IH, andb_true_r.
  destruct (JS.unreserved c) eqn:Hc.
  - simpl. by rewrite (unreserved_not_separator c Hc).
  - apply percent_escape_not_separator.
Qed.

Lemma document_cookie_setCookie name value po w :
  Cookie.document_cookie (Cookie.setCookie name value po w) =
  cons (Cookie.generateCookieString (Cookie.Date_now w) name value
          (Cookie.spread Cookie.DEFAULT_OPTIONS po))
    <$> Cookie.document_cookie w.
Proof. reflexivity. Qed.

(** *** Percent-encoding can be read back *)

Lemma unreserved_not_percent c : JS.unreserved c = true → Ascii.eqb c "%" = false.
Proof. destruct c as [[] [] [] [] [] [] [] []]; vm_compute; congruence. Qed.

Lemma percent_decode_escape c r :
  JS.unreserved c = false →
  percent_decode (JS.percent_escape c +:+ r) = option_map (String c) (percent_decode r).
Proof.
  intros H. destruct c as [[] [] [] [] [] [] [] []];
    first [discriminate H | reflexivity].
Qed.

Lemma percent_decode_encode s : percent_decode (JS.encodeURIComponent s) = Some s.
Proof.
  induction s as [|c s IH]; [reflexivity|].
  cbn [JS.encodeURIComponent]. destruct (JS.unreserved c) eqn:Hc.
  - rewrite append_cons. cbn [percent_decode].
    rewrite (unreserved_not_percent c Hc).
    change (EmptyString +:+ JS.encodeURIComponent s) with (JS.encodeURIComponent s).
    by rewrite IH.
  - by rewrite (percent_decode_escape c _ Hc), IH.
Qed.

(** *** Splitting at a character *)

Lemma all_chars_weaken (p q : ascii → bool) s :
  (∀ c, p c = true → q c = true) →
  Cookie.all_chars p s = true → Cookie.all_chars q s = true.
Proof.
  intros Hpq. induction s as [|c s IH]; [done|].
  cbn [Cookie.all_chars]. rewrite !andb_true_iff.
  intros [Hc Hs]. split; [by apply Hpq|by apply IH].
Qed.

Lemma split_on_lacks sep s : lacks sep s = true → split_on sep s = [s].
Proof.
  unfold lacks. induction s as [|c s IH]; [done|].
  cbn [Cookie.all_chars split_on]. rewrite andb_true_iff, negb_true_iff.
  intros [-> Hs]. by rewrite (IH Hs).
Qed.

Lemma split_on_app sep s1 s2 :
  lacks sep s1 = true →
  split_on sep (s1 +:+ String sep s2) = s1 :: split_on sep s2.
Proof.
  unfold lacks. induction s1 as [|c s1 IH].
  - intros _. change (EmptyString +:+ String sep s2) with (String sep s2).
    cbn [split_on]. by rewrite Ascii.eqb_refl.
  - cbn [Cookie.all_chars]. rewrite andb_true_iff, negb_true_iff.
    intros [Hc Hs]. rewrite append_cons. cbn [split_on]. by rewrite Hc, (IH Hs).
Qed.

Lemma split_on_concat sep piece pieces :
  Forall (λ s, lacks sep s = true) (piece :: pieces) →
  split_on sep (String.concat (String sep EmptyString) (piece :: pieces)) =
  piece :: pieces.
Proof.
  revert piece. induction pieces as [|next pieces IH]; intros piece Hall.
  - apply split_on_lacks. by inversion Hall.
  - inversion Hall as [|? ? Hp Hrest]; subst.
    change (String.concat (String sep EmptyString) (piece :: next :: pieces))
      with (piece +:+ String sep (String.concat (String sep EmptyString) (next :: pieces))).
    by rewrite (split_on_app sep piece _ Hp), (IH next Hrest).
Qed.

Lemma separator_free_lacks c s :
  separator c = true →
  Cookie.all_chars (λ x, negb (separator x)) s = true → lacks c s = true.
Proof.
  intros Hc. apply all_chars_weaken. intros x Hx.
  apply negb_true_iff, Ascii.eqb_neq. intros ->. by rewrite Hc in Hx.
Qed.

(** *** The string as a pair and a list of attributes *)

Lemma append_nil_r (s : string) : s +:+ "" = s.
Proof. induction s as [|c s IH]; [reflexivity|]. by rewrite append_cons, IH. Qed.

Lemma generateCookieString_concat now name value o :
  Cookie.generateCookieString now name value o =
  String.concat ";"
    ((JS.encodeURIComponent name +:+ "=" +:+ JS.encodeURIComponent value)
     :: written_attributes now o).
Proof.
  unfold Cookie.generateCookieString, Cookie.expires_at, Cookie.domain_segment,
    Cookie.sameSite_segment, Cookie.secure_segment, Cookie.template_text,
    Cookie.truthy_string, Cookie.truthy_bool, written_attributes.
  replace (now + Cookie.days o * 24 * 60 * 60 * 1000)
    with (now + Cookie.days o * 86400 * 1000) by lia.
  destruct o as [d dom p sec ss];
    cbn [Cookie.domain Cookie.sameSite Cookie.secure Cookie.path].
  destruct dom as [dm|]; [destruct (String.eqb dm "")|];
    destruct ss as [[]|]; destruct sec as [[]|];
    cbn [negb default app String.concat];
    rewrite ?append_assoc, ?append_nil_r; reflexivity.
Qed.

Lemma generateCookieString_head now name value o :
  ∃ rest,
    Cookie.generateCookieString now name value o =
    (JS.encodeURIComponent name +:+ "=" +:+ JS.encodeURIComponent value)
    +:+ String ";" rest.
Proof.
  unfold Cookie.generateCookieString.
  eexists. rewrite !append_assoc. reflexivity.
Qed.

Lemma read_pair_generateCookieString now name value o :
  read_pair (Cookie.generateCookieString now name value o) = Some (name, value).
Proof.
  destruct (generateCookieString_head now name value o) as [rest ->].
  unfold read_pair.
  assert (Hn : lacks "=" (JS.encodeURIComponent name) = true)
    by (apply separator_free_lacks; [reflexivity|apply encodeURIComponent_no_separator]).
  assert (Hv : lacks "=" (JS.encodeURIComponent value) = true)
    by (apply separator_free_lacks; [reflexivity|apply encodeURIComponent_no_separator]).
  assert (Hp : lacks ";" (JS.encodeURIComponent name +:+ "=" +:+
                          JS.encodeURIComponent value) = true).
  { unfold lacks. rewrite !all_chars_app. fold (lacks ";" (JS.encodeURIComponent name)).
    fold (lacks ";" (JS.encodeURIComponent value)).
    rewrite !separator_free_lacks;
      [reflexivity|reflexivity|apply encodeURIComponent_no_separator
      |reflexivity|apply encodeURIComponent_no_separator]. }
  rewrite (split_on_app ";" _ rest Hp).
  change (JS.encodeURIComponent name +:+ "=" +:+ JS.encodeURIComponent value)
    with (JS.encodeURIComponent name +:+ String "=" (JS.encodeURIComponent value)).
  rewrite (split_on_app "=" _ _ Hn), (split_on_lacks "=" _ Hv).
  by rewrite !percent_decode_encode.
Qed.

(** *** The characters of a printed date *)

Lemma decimal_digits_chars (d : Decimal.uint) :
  Cookie.all_chars date_char (NilEmpty.string_of_uint d) = true.
Proof. induction d; cbn [NilEmpty.string_of_uint Cookie.all_chars]; by try rewrite IHd. Qed.

Lemma decimal_chars n : Cookie.all_chars date_char (JS.decimal n) = true.
Proof.
  unfold JS.decimal, NilZero.string_of_uint.
  destruct (N.to_uint (Z.to_N n)) eqn:Hd; try reflexivity;
    rewrite <- Hd; apply decimal_digits_chars.
Qed.

Lemma zeros_chars k : Cookie.all_chars date_char (JS.zeros k) = true.
Proof. induction k as [|k IH]; [reflexivity|]. cbn [JS.zeros Cookie.all_chars]. by rewrite IH. Qed.

Lemma padded_chars n w : Cookie.all_chars date_char (JS.padded n w) = true.
Proof. unfold JS.padded. by rewrite all_chars_app, zeros_chars, decimal_chars. Qed.

Lemma day_name_chars w : Cookie.all_chars date_char (JS.day_name w) = true.
Proof.
  unfold JS.day_name.
  destruct (Z.to_nat w) as [|[|[|[|[|[|[|n]]]]]]]; try reflexivity.
  by destruct n.
Qed.

Lemma month_name_chars m : Cookie.all_chars date_char (JS.month_name m) = true.
Proof.
  unfold JS.month_name.
  destruct (Z.to_nat (m - 1)) as [|[|[|[|[|[|[|[|[|[|[|[|n]]]]]]]]]]]]; try reflexivity.
  by destruct n.
Qed.

Lemma toUTCString_chars t : Cookie.all_chars date_char (JS.toUTCString t) = true.
Proof.
  unfold JS.toUTCString. destruct (Z.abs t <=? 8640000000000000); [|reflexivity].
  destruct (JS.civil_from_days (JS.Day t)) as [[yy mm] dd].
  rewrite !all_chars_app, !padded_chars, day_name_chars, month_name_chars.
  by destruct (yy <? 0).
Qed.

Lemma date_char_plain c :
  date_char c = true → negb (Ascii.eqb c ";") = true ∧ negb (control c) = true.
Proof. destruct c as [[] [] [] [] [] [] [] []]; vm_compute; intros H; by try discriminate H. Qed.

Lemma date_text_plain s :
  Cookie.all_chars date_char s = true → lacks ";" s = true ∧ single_line s = true.
Proof.
  intros H. split; revert H; apply all_chars_weaken; intros c Hc;
    by apply date_char_plain in Hc as [? ?].
Qed.

(** *** The calendar *)

Lemma in_count_from x start n :
  start ≤ x < start + Z.of_nat n → In x (count_from start n).
Proof.
  revert start. induction n as [|n IH]; intros start Hx; [lia|].
  cbn [count_from]. destruct (Z.eq_dec start x) as [->|Hne]; [by left|right].
  apply IH. lia.
Qed.

Lemma below_forall (P : Z → bool) (n x : Z) :
  forallb P (below n) = true → 0 ≤ x < n → P x = true.
Proof.
  intros Hall Hx. apply (proj1 (forallb_forall P (below n)) Hall).
  unfold below. apply in_count_from. lia.
Qed.

Lemma calendar_agrees_first_era :
  forallb (λ doe, calendar_agrees (doe - 719468)) (below 146097) = true.
Proof. vm_compute. reflexivity. Qed.

Lemma DayFromYear_shift y e : DayFromYear (y + 400 * e) = DayFromYear y + 146097 * e.
Proof.
  unfold DayFromYear.
  replace (y + 400 * e - 1969) with (y - 1969 + (100 * e) * 4) by lia.
  replace (y + 400 * e - 1901) with (y - 1901 + (4 * e) * 100) by lia.
  replace (y + 400 * e - 1601) with (y - 1601 + e * 400) by lia.
  rewrite !Z.div_add by lia. lia.
Qed.

Lemma leap_year_shift y e : leap_year (y + 400 * e) = leap_year y.
Proof.
  unfold leap_year.
  replace ((y + 400 * e) mod 4) with (y mod 4)
    by (replace (y + 400 * e) with (y + (100 * e) * 4) by lia; by rewrite Z.mod_add).
  replace ((y + 400 * e) mod 100) with (y mod 100)
    by (replace (y + 400 * e) with (y + (4 * e) * 100) by lia; by rewrite Z.mod_add).
  replace ((y + 400 * e) mod 400) with (y mod 400)
    by (replace (y + 400 * e) with (y + e * 400) by lia; by rewrite Z.mod_add).
  reflexivity.
Qed.

Lemma civil_from_days_shift z e :
  JS.civil_from_days (z + 146097 * e) =
  let '(y, m, d) := JS.civil_from_days z in (y + 400 * e, m, d).
Proof.
  unfold JS.civil_from_days.
  replace (z + 146097 * e + 719468) with (z + 719468 + e * 146097) by lia.
  rewrite Z.div_add, Z.mod_add by lia.
  cbv zeta. f_equal. f_equal. lia.
Qed.

Lemma leb_shift a b c : (a + c <=? b + c) = (a <=? b).
Proof. destruct (Z.leb_spec (a + c) (b + c)), (Z.leb_spec a b); lia || reflexivity. Qed.

Lemma ltb_shift a b c : (a + c <? b + c) = (a <? b).
Proof. destruct (Z.ltb_spec (a + c) (b + c)), (Z.ltb_spec a b); lia || reflexivity. Qed.

Lemma eqb_shift a b c : (a + c =? b + c) = (a =? b).
Proof. destruct (Z.eqb_spec (a + c) (b + c)), (Z.eqb_spec a b); lia || reflexivity. Qed.

Lemma calendar_agrees_shift z e : calendar_agrees (z + 146097 * e) = calendar_agrees z.
Proof.
  unfold calendar_agrees. rewrite civil_from_days_shift.
  destruct (JS.civil_from_days z) as [[y m] d].
  replace (y + 400 * e + 1) with (y + 1 + 400 * e) by lia.
  rewrite !DayFromYear_shift, leap_year_shift.
  replace (DayFromYear y + 146097 * e + days_before_month (leap_year y) m + (d - 1))
    with (DayFromYear y + days_before_month (leap_year y) m + (d - 1) + 146097 * e)
    by lia.
  by rewrite leb_shift, ltb_shift, eqb_shift.
Qed.

Lemma calendar_agrees_all z : calendar_agrees z = true.
Proof.
  pose proof (Z.div_mod (z + 719468) 146097 ltac:(lia)) as Hdm.
  pose proof (Z.mod_pos_bound (z + 719468) 146097 ltac:(lia)) as Hb.
  replace z with ((z + 719468) mod 146097 - 719468 + 146097 * ((z + 719468) / 146097))
    by lia.
  rewrite calendar_agrees_shift.
  apply (below_forall (λ doe, calendar_agrees (doe - 719468)) 146097 _
           calendar_agrees_first_era Hb).
Qed.

(** The year, month and day that [civil_from_days] computes are those of
    the ECMAScript calendar, for every day number. *)
Lemma civil_from_days_spec z y m d :
  JS.civil_from_days z = (y, m, d) →
  1 ≤ m ≤ 12 ∧ 1 ≤ d ≤ days_in_month (leap_year y) m
  ∧ DayFromYear y ≤ z < DayFromYear (y + 1)
  ∧ DayFromYear y + days_before_month (leap_year y) m + (d - 1) = z.
Proof.
  intros Hc. pose proof (calendar_agrees_all z) as H.
  unfold calendar_agrees in H. rewrite Hc in H.
  rewrite !andb_true_iff in H.
  destruct H as [[[[[[H1 H2] H3] H4] H5] H6] H7].
  apply Z.leb_le in H1, H2, H3, H4, H5. apply Z.ltb_lt in H6. apply Z.eqb_eq in H7.
  lia.
Qed.

Lemma DayFromYear_mono y1 y2 : y1 ≤ y2 → DayFromYear y1 ≤ DayFromYear y2.
Proof. unfold DayFromYear. intros H. Z.div_mod_to_equations. lia. Qed.

Lemma days_in_month_le leap m : days_in_month leap m ≤ 31.
Proof.
  unfold days_in_month.
  destruct (Z.to_nat (m - 1)) as [|[|[|[|[|[|[|[|[|[|[|[|n]]]]]]]]]]]] eqn:Hm;
    cbn [nth]; destruct leap; cbn [andb];
    try (destruct (Z.eqb_spec m 2)); try lia.
  all: destruct n; cbn; lia.
Qed.

(** *** Two and four digits *)

Lemma padded_two_digits n : 0 ≤ n < 100 → JS.padded n 2 = two_digits n.
Proof.
  intros Hn. apply String.eqb_eq.
  apply (below_forall (λ x, String.eqb (JS.padded x 2) (two_digits x)) 100 n);
    [by vm_compute|done].
Qed.

Lemma padded_four_digits n : 0 ≤ n < 10000 → JS.padded n 4 = four_digits n.
Proof.
  intros Hn. apply String.eqb_eq.
  apply (below_forall (λ x, String.eqb (JS.padded x 4) (four_digits x)) 10000 n);
    [by vm_compute|done].
Qed.

Lemma string_length_app (s1 s2 : string) :
  String.length (s1 +:+ s2) = (String.length s1 + String.length s2)%nat.
Proof. induction s1 as [|c s1 IH]; [reflexivity|]. rewrite append_cons. cbn. by rewrite IH. Qed.

Lemma day_name_length w : 0 ≤ w < 7 → String.length (JS.day_name w) = 3%nat.
Proof.
  intros Hw. unfold JS.day_name.
  destruct (Z.to_nat w) as [|[|[|[|[|[|[|n]]]]]]] eqn:E; try reflexivity. lia.
Qed.

Lemma month_name_length m : 1 ≤ m ≤ 12 → String.length (JS.month_name m) = 3%nat.
Proof.
  intros Hm. unfold JS.month_name.
  destruct (Z.to_nat (m - 1)) as [|[|[|[|[|[|[|[|[|[|[|[|n]]]]]]]]]]]] eqn:E;
    try reflexivity. lia.
Qed.

(** *** The layout of the date *)

Lemma toUTCString_http_date t :
  first_instant ≤ t ≤ last_instant →
  ∃ y m d,
    0 ≤ y ≤ 9999 ∧ 1 ≤ m ≤ 12 ∧ 1 ≤ d ≤ days_in_month (leap_year y) m
    ∧ DayFromYear y + days_before_month (leap_year y) m + (d - 1) = t / 86400000
    ∧ JS.toUTCString t =
      http_date ((t / 86400000 + 4) mod 7) d m y
        (t mod 86400000 / 3600000) (t mod 86400000 / 60000 mod 60)
        (t mod 86400000 / 1000 mod 60)
    ∧ String.length (JS.toUTCString t) = 29%nat.
Proof.
  unfold first_instant, last_instant. intros Ht.
  destruct (JS.civil_from_days (JS.Day t)) as [[y m] d] eqn:Hc.
  destruct (civil_from_days_spec _ _ _ _ Hc) as (Hm & Hd & Hy & Hz).
  unfold JS.Day, JS.msPerDay in *.
  assert (Hday : -719528 ≤ t / 86400000 ≤ 2932896)
    by (Z.div_mod_to_equations; lia).
  assert (Hyr : 0 ≤ y ≤ 9999).
  { split.
    - destruct (Z_lt_le_dec y 0) as [Hneg|]; [|done].
      pose proof (DayFromYear_mono (y + 1) 0 ltac:(lia)) as Hmono.
      change (DayFromYear 0) with (-719528) in Hmono. lia.
    - destruct (Z_lt_le_dec 9999 y) as [Hbig|]; [|lia].
      pose proof (DayFromYear_mono 10000 y ltac:(lia)) as Hmono.
      change (DayFromYear 10000) with 2932897 in Hmono. lia. }
  pose proof (days_in_month_le (leap_year y) m) as Hdim.
  assert (Hlayout : JS.toUTCString t =
      http_date ((t / 86400000 + 4) mod 7) d m y
        (t mod 86400000 / 3600000) (t mod 86400000 / 60000 mod 60)
        (t mod 86400000 / 1000 mod 60)).
  { unfold JS.toUTCString, JS.WeekDay, JS.TimeWithinDay, JS.Day, JS.msPerDay.
    rewrite Hc.
    replace (Z.abs t <=? 8640000000000000) with true by (symmetry; apply Z.leb_le; lia).
    replace (y <? 0) with false by (symmetry; apply Z.ltb_ge; lia).
    rewrite (Z.abs_eq y) by lia.
    rewrite (padded_two_digits d) by lia.
    rewrite (padded_four_digits y) by lia.
    rewrite !padded_two_digits by (Z.div_mod_to_equations; lia).
    unfold http_date. reflexivity. }
  exists y, m, d. split; [done|]. split; [done|]. split; [done|]. split; [done|].
  split; [exact Hlayout|].
  rewrite Hlayout. unfold http_date, four_digits.
  rewrite !string_length_app, day_name_length, month_name_length by
    first [done | apply Z.mod_pos_bound; lia].
  reflexivity.
Qed.

Lemma toUTCString_invalid t :
  8640000000000000 < Z.abs t → JS.toUTCString t = "Invalid Date".
Proof.
  intros Ht. unfold JS.toUTCString.
  by replace (Z.abs t <=? 8640000000000000) with false by (symmetry; apply Z.leb_gt; lia).
Qed.

(** *** The attributes read back *)

Lemma lacks_app c s1 s2 : lacks c (s1 +:+ s2) = lacks c s1 && lacks c s2.
Proof. apply all_chars_app. Qed.

Lemma pair_lacks_semicolon name value :
  lacks ";" (JS.encodeURIComponent name +:+ "=" +:+ JS.encodeURIComponent value) = true.
Proof.
  rewrite !lacks_app.
  repeat (apply andb_true_iff; split); try reflexivity;
    (apply separator_free_lacks; [reflexivity|apply encodeURIComponent_no_separator]).
Qed.

Lemma written_attributes_lack_semicolon now o :
  lacks ";" (default "undefined" (Cookie.path o)) = true →
  lacks ";" (default "" (Cookie.domain o)) = true →
  Forall (λ s, lacks ";" s = true) (written_attributes now o).
Proof.
  intros Hp Hd. unfold written_attributes.
  apply Forall_app. split.
  - repeat constructor.
    + rewrite lacks_app. by destruct (date_text_plain _ (toUTCString_chars
        (now + Cookie.days o * 86400 * 1000))) as [-> _].
    + by rewrite lacks_app, Hp.
  - apply Forall_app. split; [|apply Forall_app; split].
    + destruct (Cookie.domain o) as [dm|]; [|constructor].
      destruct (String.eqb dm ""); repeat constructor.
      change (lacks ";" dm = true) in Hd. by rewrite lacks_app, Hd.
    + destruct (Cookie.sameSite o) as [[]|]; repeat constructor.
    + destruct (Cookie.secure o) as [[]|]; repeat constructor.
Qed.

Lemma read_attributes_generateCookieString now name value o :
  lacks ";" (default "undefined" (Cookie.path o)) = true →
  lacks ";" (default "" (Cookie.domain o)) = true →
  read_attributes (Cookie.generateCookieString now name value o) =
  written_attributes now o.
Proof.
  intros Hp Hd. unfold read_attributes.
  rewrite generateCookieString_concat, split_on_concat; [done|].
  constructor; [apply pair_lacks_semicolon|by apply written_attributes_lack_semicolon].
Qed.

Lemma secure_among_written_attributes now o :
  In " secure" (written_attributes now o) ↔ Cookie.secure o = Some true.
Proof.
  unfold written_attributes. rewrite !in_app_iff. split.
  - intros [Hin|[Hin|[Hin|Hin]]].
    + destruct Hin as [H|[H|[]]]; rewrite !append_cons in H; discriminate H.
    + destruct (Cookie.domain o) as [dm|]; [|destruct Hin].
      destruct (String.eqb dm ""); [destruct Hin|].
      destruct Hin as [H|[]]. rewrite !append_cons in H. discriminate H.
    + destruct (Cookie.sameSite o) as [[]|]; [| | |destruct Hin];
        destruct Hin as [H|[]]; discriminate H.
    + destruct (Cookie.secure o) as [[]|]; [done|destruct Hin|destruct Hin].
  - intros ->. do 3 right. by left.
Qed.

(** *** One line *)

Lemma separator_free_single_line s :
  Cookie.all_chars (λ x, negb (separator x)) s = true → single_line s = true.
Proof.
  apply all_chars_weaken. intros c.
  destruct c as [[] [] [] [] [] [] [] []]; vm_compute; congruence.
Qed.

Lemma single_line_app s1 s2 : single_line (s1 +:+ s2) = single_line s1 && single_line s2.
Proof. apply all_chars_app. Qed.

Lemma single_line_generateCookieString now name value o :
  single_line (default "undefined" (Cookie.path o)) = true →
  single_line (default "" (Cookie.domain o)) = true →
  single_line (Cookie.generateCookieString now name value o) = true.
Proof.
  intros Hp Hd.
  assert (Hdom : single_line (Cookie.domain_segment o) = true).
  { unfold Cookie.domain_segment.
    destruct (Cookie.truthy_string (Cookie.domain o)); [|reflexivity].
    destruct (Cookie.domain o) as [dm|]; [|reflexivity].
    change (single_line dm = true) in Hd.
    change (Cookie.template_text (Some dm)) with dm.
    by rewrite single_line_app, Hd. }
  assert (Hss : single_line (Cookie.sameSite_segment o) = true).
  { unfold Cookie.sameSite_segment. by destruct (Cookie.sameSite o) as [[]|]. }
  assert (Hsec : single_line (Cookie.secure_segment o) = true).
  { unfold Cookie.secure_segment. by destruct (Cookie.truthy_bool (Cookie.secure o)). }
  unfold Cookie.generateCookieString.
  rewrite !single_line_app, Hdom, Hss, Hsec.
  repeat (apply andb_true_iff; split); try reflexivity.
  - apply separator_free_single_line, encodeURIComponent_no_separator.
  - apply separator_free_single_line, encodeURIComponent_no_separator.
  - by destruct (date_text_plain _ (toUTCString_chars (Cookie.expires_at now o))).
  - exact Hp.
Qed.




Example wire_form_example :
  Cookie.generateCookieString 0 "a b" "x;y=z" full_options =
  "a%20b=x%3By%3Dz; expires=Fri, 02 Jan 1970 00:00:00 GMT; path=/; domain=.example.com; samesite=Strict; secure".
Proof. vm_compute. reflexivity. Qed.

End WireForm.

(** ** The attribution engine of [utm.ts] *)

Section Engine.

Implicit Types (st : Utm.State) (k v : string) (cb : Utm.Callback).

Lemma run_bind {S A B} (m : JS.M S A) (f : A → JS.M S B) (s : S) :
  (m ≫= f) s =
  match m s with
  | (JS.Normal a, s') => f a s'
  | (JS.Throw e, s') => (JS.Throw e, s')
  end.
Proof. reflexivity. Qed.

Lemma accepted_split k :
  accepted k = true ↔
  JS.startsWith k "utm_" = true ∧ JS.toLowerCase k ∈ Utm.VALID_UTM_PARAMS.
Proof.
  unfold accepted, Utm.isValidUTMParam, Utm.UTM_PREFIX.
  rewrite andb_true_iff, bool_decide_eq_true. reflexivity.
Qed.

Lemma saveUTM_rejected k v st :
  accepted k = false →
  Utm.saveUTM k v st =
  (JS.Throw (rejection k), st).
Proof.
  unfold accepted, rejection, Utm.saveUTM, Utm.UTM_PREFIX. intros H.
  destruct (JS.startsWith k "utm_"); simpl in *; [|reflexivity].
  rewrite H. reflexivity.
Qed.

Lemma getUTM_rejected k st :
  accepted k = false →
  Utm.getUTM k st =
  (JS.Throw (rejection k), st).
Proof.
  unfold accepted, rejection, Utm.getUTM, Utm.UTM_PREFIX. intros H.
  destruct (JS.startsWith k "utm_"); simpl in *; [|reflexivity].
  rewrite H. reflexivity.
Qed.

Lemma getUTM_accepted k st :
  accepted k = true →
  Utm.getUTM k st = (JS.Normal (Cookie.getCookie k (Utm.world st)), st).
Proof.
  unfold accepted, Utm.getUTM, Utm.UTM_PREFIX. intros H.
  apply andb_true_iff in H as [-> ->]. reflexivity.
Qed.

(** The decision of [shouldSaveUTM], strategy by strategy. *)
Lemma shouldSaveUTM_first k v st :
  Utm.attribution (Utm.currentConfig st) = Utm.first →
  Utm.shouldSaveUTM k v st =
  (JS.Normal (bool_decide (Cookie.getCookie k (Utm.world st) = None)), st).
Proof. unfold Utm.shouldSaveUTM. js_unfold. intros ->. reflexivity. Qed.

Lemma shouldSaveUTM_last k v st :
  Utm.attribution (Utm.currentConfig st) = Utm.last →
  Utm.shouldSaveUTM k v st = (JS.Normal true, st).
Proof. unfold Utm.shouldSaveUTM. js_unfold. intros ->. reflexivity. Qed.

Lemma shouldSaveUTM_dynamic_no_callback k v st :
  Utm.attribution (Utm.currentConfig st) = Utm.dynamic →
  Utm.attributionCallback (Utm.currentConfig st) = None →
  Utm.shouldSaveUTM k v st = (JS.Normal true, st).
Proof. unfold Utm.shouldSaveUTM. js_unfold. intros -> ->. reflexivity. Qed.

Lemma shouldSaveUTM_dynamic k v st cb :
  Utm.attribution (Utm.currentConfig st) = Utm.dynamic →
  Utm.attributionCallback (Utm.currentConfig st) = Some cb →
  Utm.shouldSaveUTM k v st =
  match cb (default "" (Cookie.getCookie k (Utm.world st))) v with
  | JS.Normal r => (JS.Normal (bool_decide (r = v)), st)
  | JS.Throw e => (JS.Normal false, reported "Error in attribution callback:" e st)
  end.
Proof.
  unfold Utm.shouldSaveUTM. js_unfold. intros -> ->.
  destruct (cb _ v); reflexivity.
Qed.

(** [saveUTM] on an accepted key: the guard passes and the decision of
    [shouldSaveUTM] selects between the write and no effect. *)
Lemma saveUTM_accepted k v st :
  accepted k = true →
  Utm.saveUTM k v st =
  match Utm.shouldSaveUTM k v st with
  | (JS.Normal true, st') => (JS.Normal tt, written k v st')
  | (JS.Normal false, st') => (JS.Normal tt, st')
  | (JS.Throw e, st') => (JS.Throw e, st')
  end.
Proof.
  unfold accepted, Utm.saveUTM, Utm.UTM_PREFIX. intros H.
  apply andb_true_iff in H as [-> ->]. cbn [negb].
  rewrite run_bind. destruct (Utm.shouldSaveUTM k v st) as [[[]|e] st']; reflexivity.
Qed.

Lemma shouldSaveUTM_normal k v st : ∃ b, (Utm.shouldSaveUTM k v st).1 = JS.Normal b.
Proof.
  unfold Utm.shouldSaveUTM. js_unfold.
  destruct (Utm.attribution (Utm.currentConfig st)); eauto.
  destruct (Utm.attributionCallback (Utm.currentConfig st)) as [cb|]; eauto.
  destruct (cb _ v); eauto.
Qed.

Lemma saveUTM_accepted_normal k v st :
  accepted k = true → (Utm.saveUTM k v st).1 = JS.Normal tt.
Proof.
  intros Hk. rewrite (saveUTM_accepted k v st Hk).
  destruct (shouldSaveUTM_normal k v st) as [b Hb].
  destruct (Utm.shouldSaveUTM k v st) as [r st']. cbn [fst] in Hb. subst r.
  by destruct b.
Qed.

Lemma saveUTM_dynamic k v st cb :
  Utm.attribution (Utm.currentConfig st) = Utm.dynamic →
  Utm.attributionCallback (Utm.currentConfig st) = Some cb →
  accepted k = true →
  Utm.saveUTM k v st =
  match cb (default "" (Cookie.getCookie k (Utm.world st))) v with
  | JS.Normal r =>
      if bool_decide (r = v) then (JS.Normal tt, written k v st) else (JS.Normal tt, st)
  | JS.Throw e => (JS.Normal tt, reported "Error in attribution callback:" e st)
  end.
Proof.
  intros Hs Hcb Hk. rewrite (saveUTM_accepted k v st Hk).
  rewrite (shouldSaveUTM_dynamic k v st cb Hs Hcb).
  destruct (cb _ v) as [r|e]; [|reflexivity].
  destruct (bool_decide (r = v)); reflexivity.
Qed.

Lemma saveUTM_dynamic_write k v st cb :
  Utm.attribution (Utm.currentConfig st) = Utm.dynamic →
  Utm.attributionCallback (Utm.currentConfig st) = Some cb →
  accepted k = true →
  cb (default "" (Cookie.getCookie k (Utm.world st))) v = JS.Normal v →
  Utm.saveUTM k v st = (JS.Normal tt, written k v st).
Proof.
  intros Hs Hcb Hk Hr. rewrite (saveUTM_dynamic k v st cb Hs Hcb Hk), Hr.
  by rewrite bool_decide_eq_true_2.
Qed.

Lemma saveUTM_dynamic_keep k v st cb r :
  Utm.attribution (Utm.currentConfig st) = Utm.dynamic →
  Utm.attributionCallback (Utm.currentConfig st) = Some cb →
  accepted k = true →
  cb (default "" (Cookie.getCookie k (Utm.world st))) v = JS.Normal r →
  r ≠ v →
  Utm.saveUTM k v st = (JS.Normal tt, st).
Proof.
  intros Hs Hcb Hk Hr Hne. rewrite (saveUTM_dynamic k v st cb Hs Hcb Hk), Hr.
  by rewrite bool_decide_eq_false_2.
Qed.

Lemma getCookie_written k v st :
  Cookie.getCookie k (Utm.world (written k v st)) = Some v.
Proof. apply getCookie_setCookie_eq. Qed.

(** C2: under the dynamic strategy with a callback, [saveUTM] on an
    accepted key writes exactly when the callback, applied to the stored
    value (or the empty string) and the incoming value, returns the
    incoming value; any other returned value leaves the whole state as it
    was. Without a callback the value is always written. With the callback
    that prefers values containing [google], saving [facebook],
    [google-ads] and [bing] in turn leaves [google-ads]. *)
Theorem dynamic_writes_iff_callback_returns_incoming st k v :
  Utm.attribution (Utm.currentConfig st) = Utm.dynamic →
  accepted k = true →
  (∀ cb, Utm.attributionCallback (Utm.currentConfig st) = Some cb →
     ((Utm.shouldSaveUTM k v st).1 = JS.Normal true ↔
      cb (default "" (Cookie.getCookie k (Utm.world st))) v = JS.Normal v)
     ∧ (cb (default "" (Cookie.getCookie k (Utm.world st))) v = JS.Normal v →
        Utm.saveUTM k v st = (JS.Normal tt, written k v st))
     ∧ (∀ r, cb (default "" (Cookie.getCookie k (Utm.world st))) v = JS.Normal r →
             r ≠ v → Utm.saveUTM k v st = (JS.Normal tt, st)))
  ∧ (Utm.attributionCallback (Utm.currentConfig st) = None →
     Utm.saveUTM k v st = (JS.Normal tt, written k v st))
  ∧ (Utm.attributionCallback (Utm.currentConfig st) = Some Scenario.prefer_google →
     ((Utm.saveUTM k "facebook";; Utm.saveUTM k "google-ads";;
       Utm.saveUTM k "bing";; Utm.getUTM k) st).1 = JS.Normal (Some "google-ads")).
Proof.
  intros Hs Hk. split; [|split].
  - intros cb Hcb. split; [|split].
    + rewrite (shouldSaveUTM_dynamic k v st cb Hs Hcb).
      destruct (cb _ v) as [r|e]; cbn [fst].
      * split.
        -- intros [= H]. apply bool_decide_eq_true in H. by subst r.
        -- intros [= ->]. f_equal. by apply bool_decide_eq_true.
      * split; discriminate.
    + intros Hr. by apply (saveUTM_dynamic_write k v st cb).
    + intros r Hr Hne. by apply (saveUTM_dynamic_keep k v st cb r).
  - intros Hcb. rewrite (saveUTM_accepted k v st Hk).
    by rewrite (shouldSaveUTM_dynamic_no_callback k v st Hs Hcb).
  - intros Hcb.
    assert (Hstep1 : ∃ st1, Utm.saveUTM k "facebook" st = (JS.Normal tt, st1)
              ∧ Utm.currentConfig st1 = Utm.currentConfig st).
    { rewrite (saveUTM_dynamic k _ st _ Hs Hcb Hk). unfold Scenario.prefer_google.
      change (JS.includes "facebook" "google") with false. cbv iota.
      case_bool_decide; eauto. }
    destruct Hstep1 as (st1 & E1 & C1).
    rewrite run_bind, E1.
    assert (Hs1 : Utm.attribution (Utm.currentConfig st1) = Utm.dynamic)
      by (by rewrite C1).
    assert (Hcb1 : Utm.attributionCallback (Utm.currentConfig st1) =
                   Some Scenario.prefer_google) by (by rewrite C1).
    rewrite run_bind.
    rewrite (saveUTM_dynamic_write k "google-ads" st1 _ Hs1 Hcb1 Hk) by reflexivity.
    rewrite run_bind.
    rewrite (saveUTM_dynamic_keep k "bing" (written k "google-ads" st1)
               Scenario.prefer_google "google-ads"); try done.
    + rewrite (getUTM_accepted k _ Hk). cbn [fst].
      by rewrite (getCookie_written k "google-ads" st1).
    + by rewrite (getCookie_written k "google-ads" st1).
Qed.

Lemma saveUTM_first_absent k v st :
  Utm.attribution (Utm.currentConfig st) = Utm.first →
  accepted k = true →
  Cookie.getCookie k (Utm.world st) = None →
  Utm.saveUTM k v st = (JS.Normal tt, written k v st).
Proof.
  intros Hs Hk Hnone. rewrite (saveUTM_accepted k v st Hk).
  rewrite (shouldSaveUTM_first k v st Hs), Hnone. reflexivity.
Qed.

Lemma saveUTM_first_present k v st prior :
  Utm.attribution (Utm.currentConfig st) = Utm.first →
  accepted k = true →
  Cookie.getCookie k (Utm.world st) = Some prior →
  Utm.saveUTM k v st = (JS.Normal tt, st).
Proof.
  intros Hs Hk Hsome. rewrite (saveUTM_accepted k v st Hk).
  rewrite (shouldSaveUTM_first k v st Hs), Hsome. reflexivity.
Qed.

(** C3: under the first-touch strategy, [saveUTM] on an accepted key writes
    the value when nothing is stored under the key, and otherwise returns
    normally with the state untouched; a stored empty string counts as
    stored. Hence, starting with nothing stored under the key, saving [a]
    and then [b] leaves [a]. *)
Theorem first_touch_keeps_first_value st k v :
  Utm.attribution (Utm.currentConfig st) = Utm.first →
  accepted k = true →
  (Cookie.getCookie k (Utm.world st) = None →
   Utm.saveUTM k v st = (JS.Normal tt, written k v st))
  ∧ (∀ prior, Cookie.getCookie k (Utm.world st) = Some prior →
     Utm.saveUTM k v st = (JS.Normal tt, st))
  ∧ (Cookie.getCookie k (Utm.world st) = Some "" →
     Utm.saveUTM k v st = (JS.Normal tt, st))
  ∧ (Cookie.getCookie k (Utm.world st) = None →
     ∀ b, ((Utm.saveUTM k v;; Utm.saveUTM k b;; Utm.getUTM k) st).1 =
          JS.Normal (Some v)).
Proof.
  intros Hs Hk. split; [|split; [|split]].
  - by apply saveUTM_first_absent.
  - intros prior. by apply saveUTM_first_present.
  - by apply saveUTM_first_present.
  - intros Hnone b.
    rewrite run_bind, (saveUTM_first_absent k v st Hs Hk Hnone).
    rewrite run_bind.
    rewrite (saveUTM_first_present k b (written k v st) v Hs Hk
               (getCookie_written k v st)).
    rewrite (getUTM_accepted k _ Hk). cbn [fst].
    by rewrite (getCookie_written k v st).
Qed.

(** C4, as the code has it: [saveUTM] and [getUTM] throw exactly when the
    key does not start with the lower-case prefix [utm_] as it is written,
    or its lower-cased form is not one of the five names; every key that
    starts with [utm_] and whose lower-cased form is one of the five names
    is accepted by both, and a rejected call leaves the state as it was. *)
Theorem guard_throws_iff_not_accepted st k v :
  ((∃ e, (Utm.saveUTM k v st).1 = JS.Throw e) ↔
   ¬ (JS.startsWith k "utm_" = true ∧ JS.toLowerCase k ∈ Utm.VALID_UTM_PARAMS))
  ∧ ((∃ e, (Utm.getUTM k st).1 = JS.Throw e) ↔
     ¬ (JS.startsWith k "utm_" = true ∧ JS.toLowerCase k ∈ Utm.VALID_UTM_PARAMS))
  ∧ (¬ (JS.startsWith k "utm_" = true ∧ JS.toLowerCase k ∈ Utm.VALID_UTM_PARAMS) →
     (Utm.saveUTM k v st).2 = st ∧ (Utm.getUTM k st).2 = st).
Proof.
  rewrite <- accepted_split.
  destruct (accepted k) eqn:Hk.
  - split; [|split].
    + split; [|done]. intros [e He].
      rewrite (saveUTM_accepted_normal k v st Hk) in He. discriminate.
    + split; [|done]. intros [e He].
      rewrite (getUTM_accepted k st Hk) in He. discriminate.
    + done.
  - rewrite (saveUTM_rejected k v st Hk), (getUTM_rejected k st Hk). cbn [fst snd].
    split; [|split]; [split; eauto| split; eauto |done].
Qed.

(** C4, as stated, fails: the lower-cased form of [UTM_SOURCE] is the
    whitelisted [utm_source], yet both operations throw on it. *)
Lemma upper_case_prefix_rejected :
  JS.toLowerCase "UTM_SOURCE" = "utm_source"
  ∧ JS.startsWith (JS.toLowerCase "UTM_SOURCE") "utm_" = true
  ∧ JS.toLowerCase "UTM_SOURCE" ∈ Utm.VALID_UTM_PARAMS
  ∧ (Utm.saveUTM "UTM_SOURCE" "google" Scenario.fresh).1 =
    JS.Throw "Invalid UTM parameter: UTM_SOURCE. UTM parameters must start with 'utm_'"
  ∧ (Utm.getUTM "UTM_SOURCE" Scenario.fresh).1 =
    JS.Throw "Invalid UTM parameter: UTM_SOURCE. UTM parameters must start with 'utm_'".
Proof.
  split; [reflexivity|]. split; [reflexivity|].
  split; [vm_compute; constructor|]. split; reflexivity.
Qed.

(** C5: under the dynamic strategy, when the callback throws during
    [saveUTM] on an accepted key, [saveUTM] returns normally, the stored
    entries and [document.cookie] are as before, and the only effect is one
    [console.error] carrying the thrown error. *)
Theorem callback_failure_is_contained st k v cb e :
  Utm.attribution (Utm.currentConfig st) = Utm.dynamic →
  Utm.attributionCallback (Utm.currentConfig st) = Some cb →
  accepted k = true →
  cb (default "" (Cookie.getCookie k (Utm.world st))) v = JS.Throw e →
  (Utm.saveUTM k v st).1 = JS.Normal tt
  ∧ Cookie.memoryStorage (Utm.world (Utm.saveUTM k v st).2) =
    Cookie.memoryStorage (Utm.world st)
  ∧ Cookie.getCookie k (Utm.world (Utm.saveUTM k v st).2) =
    Cookie.getCookie k (Utm.world st)
  ∧ Cookie.document_cookie (Utm.world (Utm.saveUTM k v st).2) =
    Cookie.document_cookie (Utm.world st)
  ∧ Cookie.console (Utm.world (Utm.saveUTM k v st).2) =
    {| Cookie.label := "Error in attribution callback:"; Cookie.error := e |}
    :: Cookie.console (Utm.world st)
  ∧ Utm.currentConfig (Utm.saveUTM k v st).2 = Utm.currentConfig st.
Proof.
  intros Hs Hcb Hk He.
  rewrite (saveUTM_dynamic k v st cb Hs Hcb Hk), He. cbn [fst snd].
  repeat split.
Qed.

(** *** The snapshot of [getUTMs] *)

Lemma proto_not_accepted k : JS.startsWith k "utm_" = true → k ≠ "__proto__".
Proof. intros H ->. discriminate H. Qed.

Lemma getAllCookies_lookup k (w : Cookie.World) :
  k ≠ "__proto__" → Cookie.getAllCookies w !! k = Cookie.getCookie k w.
Proof.
  intros Hk. unfold Cookie.getAllCookies, Cookie.getCookie.
  rewrite lookup_fmap, lookup_delete_ne by done.
  by destruct (Cookie.memoryStorage w !! k).
Qed.

Lemma getUTMs_lookup st k v :
  Utm.getUTMs st !! k = Some v ↔
  Cookie.getCookie k (Utm.world st) = Some v ∧ accepted k = true.
Proof.
  unfold Utm.getUTMs. rewrite map_lookup_filter_Some.
  unfold Utm.is_utm_entry. cbn [fst]. fold (accepted k).
  split.
  - intros [Hl Hk]. apply Is_true_true in Hk. split; [|done].
    rewrite <- getAllCookies_lookup; [done|].
    apply proto_not_accepted. by apply accepted_split in Hk as [? _].
  - intros [Hl Hk]. split; [|by apply Is_true_true].
    rewrite getAllCookies_lookup; [done|].
    apply proto_not_accepted. by apply accepted_split in Hk as [? _].
Qed.

Lemma Index_getUTMs_lookup (ist : Index.State) k v :
  Index.getUTMs ist !! k = Some v ↔
  Cookie.getCookie k (Index.world ist) = Some v ∧ JS.startsWith k "utm_" = true.
Proof.
  unfold Index.getUTMs. rewrite map_lookup_filter_Some. cbn [fst].
  split.
  - intros [Hl Hk]. apply Is_true_true in Hk. split; [|done].
    rewrite <- getAllCookies_lookup; [done|]. by apply proto_not_accepted.
  - intros [Hl Hk]. split; [|by apply Is_true_true].
    rewrite getAllCookies_lookup; [done|]. by apply proto_not_accepted.
Qed.

Lemma getUTMs_written k v st :
  accepted k = true → Utm.getUTMs (written k v st) = <[k := v]> (Utm.getUTMs st).
Proof.
  intros Hk. unfold Utm.getUTMs, Cookie.getAllCookies, written, Utm.with_world.
  cbn [Utm.world]. rewrite memoryStorage_setCookie.
  rewrite delete_insert_ne.
  2:{ intros Heq. apply accepted_split in Hk as [Hk _].
      by apply proto_not_accepted in Hk. }
  rewrite fmap_insert. cbn [Cookie.value].
  rewrite map_filter_insert_True; [done|].
  unfold Utm.is_utm_entry. cbn [fst]. fold (accepted k). by apply Is_true_true.
Qed.

(** C7, as the code has it: [getUTMs] of [utm.ts] returns exactly the
    entries of [memoryStorage] whose key starts with [utm_] and, once
    lower-cased, is one of the five names; each is returned under the key
    it was stored under, which need not be lower-case, and with its stored
    value. [getUTMs] of [index.ts] keeps every stored key that starts with
    [utm_]. *)
Theorem getUTMs_returns_accepted_entries_as_stored st k v :
  (Utm.getUTMs st !! k = Some v ↔
   Cookie.getCookie k (Utm.world st) = Some v
   ∧ JS.startsWith k "utm_" = true
   ∧ JS.toLowerCase k ∈ Utm.VALID_UTM_PARAMS)
  ∧ ∀ ist : Index.State,
      Index.getUTMs ist !! k = Some v ↔
      Cookie.getCookie k (Index.world ist) = Some v ∧ JS.startsWith k "utm_" = true.
Proof.
  split.
  - rewrite getUTMs_lookup, accepted_split. reflexivity.
  - intros ist. apply Index_getUTMs_lookup.
Qed.

(** C7, as stated, fails: [saveUTM] accepts [utm_Source] and stores it as
    it is, and [getUTMs] returns the key in that mixed-case form; in
    [index.ts] a stored [utm_bogus] outside the whitelist is returned. *)
Lemma getUTMs_key_not_canonical :
  (Utm.saveUTM "utm_Source" "google" Scenario.fresh).1 = JS.Normal tt
  ∧ Utm.getUTMs (Utm.saveUTM "utm_Source" "google" Scenario.fresh).2 !! "utm_Source"
    = Some "google"
  ∧ JS.toLowerCase "utm_Source" ≠ "utm_Source"
  ∧ ("utm_Source" ∉ Utm.VALID_UTM_PARAMS)
  ∧ Index.getUTMs
      (Index.with_world (Cookie.setCookie "utm_bogus" "x" Cookie.no_options)
         Scenario.fresh_index) !! "utm_bogus" = Some "x"
  ∧ (JS.toLowerCase "utm_bogus" ∉ Index.validParams).
Proof.
  split; [reflexivity|]. split; [by vm_compute|]. split; [discriminate|].
  split; [|split; [by vm_compute|]].
  - apply (bool_decide_eq_false_1 _). by vm_compute.
  - apply (bool_decide_eq_false_1 _). by vm_compute.
Qed.

(** *** The batch operation *)

Lemma saveUTMs_cons k v params st :
  Utm.saveUTMs ((k, v) :: params) st =
  Utm.saveUTMs params
    (if accepted k then (Utm.saveUTM k v st).2 else rejection_reported k st).
Proof.
  unfold Utm.saveUTMs at 1. cbn [Utm.forEach]. rewrite run_bind.
  fold (Utm.saveUTMs params). unfold JS.try_catch.
  destruct (accepted k) eqn:Hk.
  - pose proof (saveUTM_accepted_normal k v st Hk) as Hn.
    destruct (Utm.saveUTM k v st) as [r st']. cbn [fst] in Hn. by subst r.
  - by rewrite (saveUTM_rejected k v st Hk).
Qed.

Lemma saveUTMs_normal params st : (Utm.saveUTMs params st).1 = JS.Normal tt.
Proof.
  revert st. induction params as [|[k v] params IH]; intros st; [reflexivity|].
  rewrite saveUTMs_cons. apply IH.
Qed.

Lemma saveUTMs_app l1 l2 st :
  (Utm.saveUTMs (l1 ++ l2) st).2 = (Utm.saveUTMs l2 (Utm.saveUTMs l1 st).2).2.
Proof.
  revert st. induction l1 as [|[k v] l1 IH]; intros st; [reflexivity|].
  rewrite <- app_comm_cons, !saveUTMs_cons. apply IH.
Qed.

Lemma same_store_refl st : same_store st st.
Proof. by repeat split. Qed.

Lemma same_store_rejection_reported k st st' :
  same_store st st' → same_store (rejection_reported k st) st'.
Proof. intros H. exact H. Qed.

Lemma same_store_getCookie k st st' :
  same_store st st' →
  Cookie.getCookie k (Utm.world st) = Cookie.getCookie k (Utm.world st').
Proof. intros (Hm & _). unfold Cookie.getCookie. by rewrite Hm. Qed.

Lemma same_store_written k v st st' :
  same_store st st' → same_store (written k v st) (written k v st').
Proof.
  intros (Hm & Hd & Ht & Hc). unfold same_store, written, Utm.with_world.
  cbn [Utm.world Utm.currentConfig]. rewrite !memoryStorage_setCookie.
  rewrite !document_cookie_setCookie. rewrite Hm, Hd, Ht, Hc. done.
Qed.

Lemma same_store_saveUTM k v st st' :
  accepted k = true → same_store st st' →
  same_store (Utm.saveUTM k v st).2 (Utm.saveUTM k v st').2.
Proof.
  intros Hk Hss. rewrite !(saveUTM_accepted k v _ Hk).
  pose proof (same_store_getCookie k st st' Hss) as Hg.
  pose proof (same_store_written k v st st' Hss) as Hw.
  pose proof Hss as (_ & _ & _ & Hc).
  unfold Utm.shouldSaveUTM. js_unfold. rewrite <- Hc, <- Hg.
  destruct (Utm.attribution (Utm.currentConfig st)).
  - by destruct (bool_decide _).
  - done.
  - destruct (Utm.attributionCallback (Utm.currentConfig st)) as [cb|]; [|done].
    destruct (cb _ v) as [r|e]; [by destruct (bool_decide _)|done].
Qed.

Lemma saveUTMs_same_store params st st' :
  same_store st st' →
  same_store (Utm.saveUTMs params st).2
    (Utm.saveUTMs (List.filter (λ entry, accepted entry.1) params) st').2.
Proof.
  revert st st'. induction params as [|[k v] params IH]; intros st st' Hss; [done|].
  rewrite saveUTMs_cons. cbn [List.filter fst].
  destruct (accepted k) eqn:Hk.
  - rewrite saveUTMs_cons, Hk. apply IH. by apply same_store_saveUTM.
  - apply IH. by apply same_store_rejection_reported.
Qed.

Lemma saveUTM_last k v st :
  Utm.attribution (Utm.currentConfig st) = Utm.last →
  accepted k = true →
  Utm.saveUTM k v st = (JS.Normal tt, written k v st).
Proof.
  intros Hs Hk. rewrite (saveUTM_accepted k v st Hk).
  by rewrite (shouldSaveUTM_last k v st Hs).
Qed.

(** Last touch: saving [a] and then [b] leaves [b]. *)
Lemma last_touch_keeps_last_value k a b st :
  Utm.attribution (Utm.currentConfig st) = Utm.last →
  accepted k = true →
  ((Utm.saveUTM k a;; Utm.saveUTM k b;; Utm.getUTM k) st).1 = JS.Normal (Some b).
Proof.
  intros Hs Hk.
  rewrite run_bind, (saveUTM_last k a st Hs Hk).
  rewrite run_bind, (saveUTM_last k b (written k a st) Hs Hk).
  rewrite (getUTM_accepted k _ Hk). cbn [fst].
  by rewrite (getCookie_written k b (written k a st)).
Qed.

Lemma getUTMs_saveUTMs_last params st :
  Utm.attribution (Utm.currentConfig st) = Utm.last →
  Utm.getUTMs (Utm.saveUTMs params st).2 =
  foldl (λ m entry, <[entry.1 := entry.2]> m) (Utm.getUTMs st)
    (List.filter (λ entry, accepted entry.1) params).
Proof.
  revert st. induction params as [|[k v] params IH]; intros st Hs; [done|].
  rewrite saveUTMs_cons. cbn [List.filter fst].
  destruct (accepted k) eqn:Hk.
  - rewrite (saveUTM_last k v st Hs Hk). cbn [snd foldl fst].
    rewrite IH by done. by rewrite (getUTMs_written k v st Hk).
  - by rewrite IH.
Qed.

(** C6: [saveUTMs] always returns normally. An entry with a rejected key
    is reported with one [console.error] and the entries after it are
    processed from the state reached before it. The stored entries,
    [document.cookie] and the policy end as if only the entries with
    accepted keys had been submitted; under the last-touch strategy the
    snapshot of [getUTMs] is the previous one updated with exactly those
    entries. The batch [utm_source], [bogus], [utm_medium] on a fresh engine
    leaves [utm_source] and [utm_medium]. *)
Theorem saveUTMs_best_effort (params : list (string * string)) st :
  (Utm.saveUTMs params st).1 = JS.Normal tt
  ∧ (∀ l1 k v l2,
       params = l1 ++ (k, v) :: l2 → accepted k = false →
       (Utm.saveUTMs params st).2 =
       (Utm.saveUTMs l2 (rejection_reported k (Utm.saveUTMs l1 st).2)).2
       ∧ Cookie.console (Utm.world (rejection_reported k (Utm.saveUTMs l1 st).2)) =
         {| Cookie.label := "Error saving UTM parameter " +:+ k +:+ ":";
            Cookie.error := rejection k |}
         :: Cookie.console (Utm.world (Utm.saveUTMs l1 st).2))
  ∧ same_store (Utm.saveUTMs params st).2
      (Utm.saveUTMs (List.filter (λ entry, accepted entry.1) params) st).2
  ∧ (Utm.attribution (Utm.currentConfig st) = Utm.last →
     Utm.getUTMs (Utm.saveUTMs params st).2 =
     foldl (λ m entry, <[entry.1 := entry.2]> m) (Utm.getUTMs st)
       (List.filter (λ entry, accepted entry.1) params))
  ∧ Utm.getUTMs
      (Utm.saveUTMs [("utm_source", "google"); ("bogus", "x"); ("utm_medium", "cpc")]
         Scenario.fresh).2
    = {[ "utm_source" := "google"; "utm_medium" := "cpc" ]}.
Proof.
  split; [apply saveUTMs_normal|]. split; [|split; [|split]].
  - intros l1 k v l2 -> Hk. split; [|reflexivity].
    rewrite saveUTMs_app, saveUTMs_cons, Hk. reflexivity.
  - apply saveUTMs_same_store, same_store_refl.
  - apply getUTMs_saveUTMs_last.
  - by vm_compute.
Qed.

End Engine.

(** ** The entry point of [index.ts] *)

Section EntryPoint.

Implicit Types (st : Index.State) (k v : string) (days : option Z).

Lemma validateUTMKey_state k st : (Index.validateUTMKey k st).2 = st.
Proof.
  unfold Index.validateUTMKey.
  destruct (JS.startsWith k "utm_"); [|reflexivity].
  by destruct (bool_decide _).
Qed.

Lemma validateUTMKey_normal k st :
  (Index.validateUTMKey k st).1 = JS.Normal tt ↔
  JS.startsWith k "utm_" = true ∧ JS.toLowerCase k ∈ Index.validParams.
Proof.
  unfold Index.validateUTMKey.
  destruct (JS.startsWith k "utm_"); cbn [negb]; [|by split; [|intros []]].
  case_bool_decide; cbn [negb fst]; split; try done. by intros [].
Qed.

Lemma Index_shouldSaveUTM_true cur v st :
  (Index.shouldSaveUTM cur v st).1 = JS.Normal true →
  Index.shouldSaveUTM cur v st = (JS.Normal true, st).
Proof.
  unfold Index.shouldSaveUTM. js_unfold.
  destruct (Index.attribution (Index.currentConfig st)); cbn [fst].
  - by intros ->.
  - done.
  - destruct (Index.attributionCallback (Index.currentConfig st)) as [cb|]; [|done].
    destruct (cb _ v); cbn [fst]; [by intros ->|discriminate].
Qed.

(** [shouldSaveUTM] of [index.ts] decides like the one of [utm.ts]. *)
Lemma Index_shouldSaveUTM_dynamic cur v st cb :
  Index.attribution (Index.currentConfig st) = Utm.dynamic →
  Index.attributionCallback (Index.currentConfig st) = Some cb →
  (Index.shouldSaveUTM cur v st).1 = JS.Normal true ↔
  cb (default "" cur) v = JS.Normal v.
Proof.
  unfold Index.shouldSaveUTM. js_unfold. intros -> ->.
  destruct (cb _ v) as [r|e]; cbn [fst].
  - split.
    + intros [= H]. apply bool_decide_eq_true in H. by subst r.
    + intros [= ->]. f_equal. by apply bool_decide_eq_true.
  - split; discriminate.
Qed.

(** [saveUTMs] once the key is valid and the decision is to write. *)
Lemma Index_saveUTMs_write k v days st :
  (Index.validateUTMKey k st).1 = JS.Normal tt →
  (Index.shouldSaveUTM (Cookie.getCookie k (Index.world st)) v st).1 = JS.Normal true →
  Index.saveUTMs k v days st =
  (JS.Normal tt,
   Index.with_world
     (Cookie.setCookie k v (Index.cookieOptions (Index.currentConfig st) days)) st).
Proof.
  intros Hvalid Hsave. unfold Index.saveUTMs.
  rewrite run_bind.
  pose proof (validateUTMKey_state k st) as Hst.
  destruct (Index.validateUTMKey k st) as [r st']. cbn [fst snd] in *. subst r st'.
  rewrite run_bind. unfold JS.get at 1. cbv iota.
  rewrite run_bind, (Index_shouldSaveUTM_true _ v st Hsave). reflexivity.
Qed.



End EntryPoint.

(** ** The theorems at concrete inputs *)

Lemma dynamic_writes_witness :
  Utm.attribution
    (Utm.currentConfig (Scenario.with_strategy Utm.dynamic (Some Scenario.prefer_google)))
  = Utm.dynamic
  ∧ accepted "utm_source" = true
  ∧ Utm.saveUTM "utm_source" "google-ads"
      (Scenario.with_strategy Utm.dynamic (Some Scenario.prefer_google))
    = (JS.Normal tt,
       written "utm_source" "google-ads"
         (Scenario.with_strategy Utm.dynamic (Some Scenario.prefer_google)))
  ∧ ((Utm.saveUTM "utm_source" "facebook";; Utm.saveUTM "utm_source" "google-ads";;
      Utm.saveUTM "utm_source" "bing";; Utm.getUTM "utm_source")
       (Scenario.with_strategy Utm.dynamic (Some Scenario.prefer_google))).1
    = JS.Normal (Some "google-ads").
Proof.
  split; [reflexivity|]. split; [reflexivity|].
  destruct (dynamic_writes_iff_callback_returns_incoming
              (Scenario.with_strategy Utm.dynamic (Some Scenario.prefer_google))
              "utm_source" "google-ads" eq_refl eq_refl) as (Hcb & _ & Hseq).
  split.
  - destruct (Hcb Scenario.prefer_google eq_refl) as (_ & Hwrite & _).
    apply Hwrite. reflexivity.
  - apply Hseq. reflexivity.
Defined.

Lemma first_touch_witness :
  Utm.attribution (Utm.currentConfig (Scenario.with_strategy Utm.first None)) = Utm.first
  ∧ accepted "utm_source" = true
  ∧ Cookie.getCookie "utm_source" (Utm.world (Scenario.with_strategy Utm.first None)) = None
  ∧ ((Utm.saveUTM "utm_source" "a";; Utm.saveUTM "utm_source" "b";;
      Utm.getUTM "utm_source") (Scenario.with_strategy Utm.first None)).1
    = JS.Normal (Some "a").
Proof.
  split; [reflexivity|]. split; [reflexivity|]. split; [reflexivity|].
  destruct (first_touch_keeps_first_value (Scenario.with_strategy Utm.first None)
              "utm_source" "a" eq_refl eq_refl) as (_ & _ & _ & Hseq).
  apply Hseq. reflexivity.
Defined.

Lemma guard_witness :
  ¬ (JS.startsWith "bogus" "utm_" = true ∧ JS.toLowerCase "bogus" ∈ Utm.VALID_UTM_PARAMS)
  ∧ (∃ e, (Utm.saveUTM "bogus" "x" Scenario.fresh).1 = JS.Throw e)
  ∧ (Utm.saveUTM "bogus" "x" Scenario.fresh).2 = Scenario.fresh.
Proof.
  assert (Hno : ¬ (JS.startsWith "bogus" "utm_" = true
                   ∧ JS.toLowerCase "bogus" ∈ Utm.VALID_UTM_PARAMS)).
  { intros [H _]. discriminate H. }
  destruct (guard_throws_iff_not_accepted Scenario.fresh "bogus" "x")
    as (Hsave & _ & Hstate).
  split; [exact Hno|]. split.
  - apply Hsave. exact Hno.
  - apply Hstate. exact Hno.
Defined.

Lemma callback_failure_witness :
  Utm.attribution
    (Utm.currentConfig (Scenario.with_strategy Utm.dynamic (Some Scenario.failing)))
  = Utm.dynamic
  ∧ accepted "utm_source" = true
  ∧ Scenario.failing "" "google" = JS.Throw "boom"
  ∧ (Utm.saveUTM "utm_source" "google"
       (Scenario.with_strategy Utm.dynamic (Some Scenario.failing))).1 = JS.Normal tt
  ∧ Cookie.memoryStorage
      (Utm.world (Utm.saveUTM "utm_source" "google"
         (Scenario.with_strategy Utm.dynamic (Some Scenario.failing))).2)
    = Cookie.memoryStorage
        (Utm.world (Scenario.with_strategy Utm.dynamic (Some Scenario.failing))).
Proof.
  split; [reflexivity|]. split; [reflexivity|]. split; [reflexivity|].
  destruct (callback_failure_is_contained
              (Scenario.with_strategy Utm.dynamic (Some Scenario.failing))
              "utm_source" "google" Scenario.failing "boom"
              eq_refl eq_refl eq_refl eq_refl) as (Hn & Hm & _).
  split; [exact Hn|exact Hm].
Defined.

Lemma saveUTMs_witness :
  accepted "bogus" = false
  ∧ Utm.attribution (Utm.currentConfig Scenario.fresh) = Utm.last
  ∧ (Utm.saveUTMs [("utm_source", "google"); ("bogus", "x"); ("utm_medium", "cpc")]
       Scenario.fresh).1 = JS.Normal tt
  ∧ (Utm.saveUTMs [("utm_source", "google"); ("bogus", "x"); ("utm_medium", "cpc")]
       Scenario.fresh).2
    = (Utm.saveUTMs [("utm_medium", "cpc")]
         (rejection_reported "bogus"
            (Utm.saveUTMs [("utm_source", "google")] Scenario.fresh).2)).2
  ∧ Utm.getUTMs
      (Utm.saveUTMs [("utm_source", "google"); ("bogus", "x"); ("utm_medium", "cpc")]
         Scenario.fresh).2
    = <["utm_medium" := "cpc"]> (<["utm_source" := "google"]> (Utm.getUTMs Scenario.fresh)).
Proof.
  split; [reflexivity|]. split; [reflexivity|].
  destruct (saveUTMs_best_effort
              [("utm_source", "google"); ("bogus", "x"); ("utm_medium", "cpc")]
              Scenario.fresh) as (Hn & Hskip & _ & Hlast & _).
  split; [exact Hn|]. split.
  - apply (Hskip [("utm_source", "google")] "bogus" "x" [("utm_medium", "cpc")]);
      reflexivity.
  - apply Hlast. reflexivity.
Defined.


(** * Further properties of the code *)

(** ** The cookie store, continued *)

Section CookieStoreLaws.

Implicit Types (w : Cookie.World) (name value : string).
Implicit Types (o : Cookie.PartialCookieOptions).

(** X1: reading after a write: the written name holds the written value,
    and every other name holds what it held before. *)
Theorem getCookie_setCookie name name' value o w :
  Cookie.getCookie name' (Cookie.setCookie name value o w) =
  if decide (name = name') then Some value else Cookie.getCookie name' w.
Proof.
  case_decide as Hn.
  - subst name'. apply getCookie_setCookie_eq.
  - by apply getCookie_setCookie_ne.
Qed.

(** X2: a write replaces the entry unconditionally: after two writes to one
    name the map holds the second value with the options of the second
    write, exactly as if the first write had not happened, while
    [document.cookie] was assigned twice. *)
Theorem setCookie_overwrites name v1 v2 o1 o2 w :
  Cookie.memoryStorage (Cookie.setCookie name v2 o2 (Cookie.setCookie name v1 o1 w)) =
  Cookie.memoryStorage (Cookie.setCookie name v2 o2 w)
  ∧ Cookie.memoryStorage (Cookie.setCookie name v2 o2 (Cookie.setCookie name v1 o1 w))
      !! name =
    Some {| Cookie.value := v2;
            Cookie.options := Cookie.spread Cookie.DEFAULT_OPTIONS o2 |}
  ∧ Cookie.document_cookie (Cookie.setCookie name v2 o2 (Cookie.setCookie name v1 o1 w)) =
    (λ l, Cookie.generateCookieString (Cookie.Date_now w) name v2
            (Cookie.spread Cookie.DEFAULT_OPTIONS o2)
          :: Cookie.generateCookieString (Cookie.Date_now w) name v1
               (Cookie.spread Cookie.DEFAULT_OPTIONS o1)
          :: l) <$> Cookie.document_cookie w.
Proof.
  split; [|split].
  - rewrite !memoryStorage_setCookie. apply insert_insert_eq.
  - rewrite !memoryStorage_setCookie. apply lookup_insert_eq.
  - rewrite !document_cookie_setCookie. by destruct w as [? ? [?|] ?].
Qed.

(** X3: reading after a removal: the removed name is absent and every
    other name holds what it held before; a removal right after a write of
    the same name leaves the map as it was with that name deleted. The
    string assigned to [document.cookie] carries the empty value and an
    expiry one day before the current instant. *)
Theorem getCookie_removeCookie name name' value o o' w :
  Cookie.getCookie name' (Cookie.removeCookie name o w) =
    (if decide (name = name') then None else Cookie.getCookie name' w)
  ∧ Cookie.memoryStorage (Cookie.removeCookie name o' (Cookie.setCookie name value o w)) =
    delete name (Cookie.memoryStorage w)
  ∧ Cookie.document_cookie (Cookie.removeCookie name o w) =
    cons (JS.encodeURIComponent name +:+ "=; expires=" +:+
          JS.toUTCString (Cookie.Date_now w - 86400000) +:+
          "; path=" +:+
          default "undefined" (Cookie.path (Cookie.spread Cookie.DEFAULT_OPTIONS o)) +:+
          Cookie.domain_segment (Cookie.spread Cookie.DEFAULT_OPTIONS o) +:+
          Cookie.sameSite_segment (Cookie.spread Cookie.DEFAULT_OPTIONS o) +:+
          Cookie.secure_segment (Cookie.spread Cookie.DEFAULT_OPTIONS o))
      <$> Cookie.document_cookie w.
Proof.
  split; [|split].
  - unfold Cookie.getCookie. rewrite memoryStorage_removeCookie.
    case_decide as Hn.
    + subst name'. by rewrite lookup_delete_eq.
    + by rewrite lookup_delete_ne.
  - rewrite memoryStorage_removeCookie, memoryStorage_setCookie.
    apply delete_insert_eq.
  - unfold Cookie.removeCookie, Cookie.assign_document_cookie, Cookie.with_memoryStorage.
    cbn [Cookie.document_cookie Cookie.Date_now]. f_equal. f_equal.
    unfold Cookie.generateCookieString, Cookie.expires_at.
    cbn [Cookie.with_days Cookie.days JS.encodeURIComponent].
    unfold Cookie.domain_segment, Cookie.sameSite_segment, Cookie.secure_segment,
      Cookie.template_text.
    cbn [Cookie.with_days Cookie.domain Cookie.path Cookie.secure Cookie.sameSite].
    replace (Cookie.Date_now w + -1 * 24 * 60 * 60 * 1000)
      with (Cookie.Date_now w - 86400000) by lia.
    rewrite !append_assoc. reflexivity.
Qed.

(** X4: removing a name that is not stored leaves the map as it is, and a
    write of such a name followed by its removal brings the map back to
    what it was. *)
Theorem removeCookie_absent name value o o' w :
  Cookie.getCookie name w = None →
  Cookie.memoryStorage (Cookie.removeCookie name o w) = Cookie.memoryStorage w
  ∧ Cookie.memoryStorage (Cookie.removeCookie name o' (Cookie.setCookie name value o w)) =
    Cookie.memoryStorage w.
Proof.
  intros Habsent.
  assert (Hd : delete name (Cookie.memoryStorage w) = Cookie.memoryStorage w).
  { apply delete_id. unfold Cookie.getCookie in Habsent.
    by destruct (Cookie.memoryStorage w !! name). }
  split.
  - by rewrite memoryStorage_removeCookie.
  - by rewrite memoryStorage_removeCookie, memoryStorage_setCookie, delete_insert_eq.
Qed.

Lemma removeCookie_absent_witness :
  Cookie.getCookie "session" Scenario.empty_world = None
  ∧ Cookie.memoryStorage
      (Cookie.removeCookie "session" Cookie.no_options
         (Cookie.setCookie "session" "1" Cookie.no_options Scenario.empty_world))
    = Cookie.memoryStorage Scenario.empty_world.
Proof.
  split; [reflexivity|].
  apply (removeCookie_absent "session" "1" Cookie.no_options Cookie.no_options
           Scenario.empty_world eq_refl).
Defined.

(** X5: [getAllCookies] agrees with [getCookie] on every name but
    [__proto__]: a cookie stored under that name is read by [getCookie] and
    is never part of the object that [getAllCookies] returns. *)
Theorem getAllCookies_spec name w :
  Cookie.getAllCookies w !! name =
  if decide (name = "__proto__") then None else Cookie.getCookie name w.
Proof.
  case_decide as Hn.
  - subst name. unfold Cookie.getAllCookies.
    by rewrite lookup_fmap, lookup_delete_eq.
  - by apply getAllCookies_lookup.
Qed.

Lemma valid_name_char_spec c : Cookie.valid_name_char c = name_char c.
Proof. destruct c as [[] [] [] [] [] [] [] []]; reflexivity. Qed.

Lemma all_chars_ext p q s :
  (∀ c, p c = q c) → Cookie.all_chars p s = Cookie.all_chars q s.
Proof.
  intros Hpq. induction s as [|c s IH]; [reflexivity|].
  simpl. by rewrite Hpq, IH.
Qed.

Lemma all_chars_impl p q s :
  (∀ c, p c = true → q c = true) →
  Cookie.all_chars p s = true → Cookie.all_chars q s = true.
Proof.
  intros Hpq. induction s as [|c s IH]; [done|].
  simpl. rewrite !andb_true_iff. intros [Hc Hs]. split; [by apply Hpq|by apply IH].
Qed.

Lemma name_char_not_separator c :
  name_char c = true → separator c = false ∨ c = "="%char.
Proof.
  destruct c as [[] [] [] [] [] [] [] []]; vm_compute; intros H;
    first [discriminate H | by left | by right].
Qed.

(** X6: [isValidCookieName] accepts exactly the non-empty names made of
    printable ASCII characters other than the double quote, the comma, the
    semicolon and the backslash. Such a name carries no control character
    and no whitespace; the equals sign is among the accepted characters. *)
Theorem isValidCookieName_spec name :
  (Cookie.isValidCookieName name = true ↔
   name ≠ "" ∧ Cookie.all_chars name_char name = true)
  ∧ (Cookie.isValidCookieName name = true →
     Cookie.all_chars
       (λ c, negb (separator c) || Ascii.eqb c "=") name = true)
  ∧ Cookie.isValidCookieName (name +:+ "=") = Cookie.all_chars name_char name.
Proof.
  assert (Hiff : Cookie.isValidCookieName name = true ↔
                 name ≠ "" ∧ Cookie.all_chars name_char name = true).
  { unfold Cookie.isValidCookieName.
    rewrite andb_true_iff, negb_true_iff, String.eqb_neq.
    by rewrite (all_chars_ext _ _ name valid_name_char_spec). }
  split; [exact Hiff|]. split.
  - intros Hv. apply Hiff in Hv as [_ Hv].
    revert Hv. apply all_chars_impl. intros c Hc.
    destruct (name_char_not_separator c Hc) as [-> | ->]; reflexivity.
  - unfold Cookie.isValidCookieName.
    rewrite (all_chars_ext _ _ _ valid_name_char_spec), all_chars_app.
    cbn [Cookie.all_chars]. change (name_char "=") with true.
    rewrite !andb_true_r.
    destruct name; reflexivity.
Qed.

Lemma isValidCookieName_witness :
  Cookie.isValidCookieName "valid-name" = true
  ∧ Cookie.all_chars (λ c, negb (separator c) || Ascii.eqb c "=") "valid-name" = true
  ∧ Cookie.isValidCookieName "invalid name" = false
  ∧ Cookie.isValidCookieName "invalid;name" = false.
Proof.
  split; [reflexivity|]. split; [|split; reflexivity].
  destruct (isValidCookieName_spec "valid-name") as (_ & Himpl & _).
  apply Himpl. reflexivity.
Defined.

End CookieStoreLaws.

(** ** The JSON pair *)

Section JsonCookies.

Context {T : Type}.
Variable JSON_parse : string → JS.completion (option T).
Variable JSON_stringify : T → string.

Implicit Types (w : Cookie.World) (name : string).

(** X7: [getJSONCookie] answers [null] in exactly three situations: the
    cookie is not stored, its text does not parse, or its text is the JSON
    [null]; in every other case it answers the parsed data. A text that
    does not parse is never reported as an error. *)
Theorem getJSONCookie_null_iff name w :
  (CookieJson.getJSONCookie T JSON_parse name w = None ↔
   Cookie.getCookie name w = None
   ∨ ∃ text, Cookie.getCookie name w = Some text
             ∧ ((∃ e, JSON_parse text = JS.Throw e) ∨ JSON_parse text = JS.Normal None))
  ∧ ∀ x, CookieJson.getJSONCookie T JSON_parse name w = Some x ↔
         ∃ text, Cookie.getCookie name w = Some text
                 ∧ JSON_parse text = JS.Normal (Some x).
Proof.
  unfold CookieJson.getJSONCookie.
  destruct (Cookie.getCookie name w) as [text|].
  - destruct (JSON_parse text) as [[x|]|e] eqn:Hp; split.
    + split; [done|]. intros [|(t & [= <-] & [[e He]|He])]; congruence.
    + intros y. split.
      * intros [= <-]. eauto.
      * intros (t & [= <-] & He). congruence.
    + split; [|done]. intros _. right. eauto.
    + intros y. split; [done|]. intros (t & [= <-] & He). congruence.
    + split; [|done]. intros _. right. exists text. eauto.
    + intros y. split; [done|]. intros (t & [= <-] & He). congruence.
  - split; [by split; [left|]|].
    intros y. split; [done|]. by intros (t & ? & _).
Qed.

(** X8: what [setJSONCookie] stores is read back by [getJSONCookie]
    whenever the platform parses the text it printed for the data back to
    the same data; the stored cookie is the printed text. *)
Theorem getJSONCookie_setJSONCookie name (x : T) o w :
  JSON_parse (JSON_stringify x) = JS.Normal (Some x) →
  CookieJson.getJSONCookie T JSON_parse name
    (CookieJson.setJSONCookie T JSON_stringify name x o w) = Some x
  ∧ Cookie.getCookie name (CookieJson.setJSONCookie T JSON_stringify name x o w) =
    Some (JSON_stringify x).
Proof.
  intros Hrt. unfold CookieJson.getJSONCookie, CookieJson.setJSONCookie.
  rewrite getCookie_setCookie_eq, Hrt. done.
Qed.

End JsonCookies.

Lemma getJSONCookie_setJSONCookie_witness :
  Fixture.parse_bool (Fixture.stringify_bool true) = JS.Normal (Some true)
  ∧ CookieJson.getJSONCookie bool Fixture.parse_bool "consent"
      (CookieJson.setJSONCookie bool Fixture.stringify_bool "consent" true
         Cookie.no_options Scenario.empty_world) = Some true.
Proof.
  split; [reflexivity|].
  apply (getJSONCookie_setJSONCookie Fixture.parse_bool Fixture.stringify_bool
           "consent" true Cookie.no_options Scenario.empty_world eq_refl).
Defined.

(** ** The keys the engine accepts *)

Section AcceptedKeys.

Lemma prefix_app (p s : string) :
  String.prefix p s = true ↔ ∃ rest, s = p +:+ rest.
Proof.
  revert s. induction p as [|a p IH]; intros s.
  - split; [intros _; by exists s|intros _; by destruct s].
  - destruct s as [|b s]; cbn [String.prefix].
    + split; [done|]. by intros [rest Hr].
    + destruct (ascii_dec a b) as [->|Hne].
      * rewrite IH. split; intros [rest Hr]; exists rest.
        -- by rewrite append_cons, Hr.
        -- rewrite append_cons in Hr. by injection Hr.
      * split; [done|]. intros [rest Hr]. rewrite append_cons in Hr.
        injection Hr as Hb _. congruence.
Qed.

Lemma toLowerCase_utm rest :
  JS.toLowerCase ("utm_" +:+ rest) =
  String "u" (String "t" (String "m" (String "_" (JS.toLowerCase rest)))).
Proof. reflexivity. Qed.

Lemma accepted_names k :
  accepted k = true ↔
  ∃ rest, k = "utm_" +:+ rest ∧ JS.toLowerCase rest ∈ parameter_names.
Proof.
  rewrite accepted_split. unfold JS.startsWith. rewrite prefix_app.
  unfold Utm.VALID_UTM_PARAMS, parameter_names.
  split.
  - intros [[rest ->] Hin]. exists rest. split; [done|].
    rewrite toLowerCase_utm in Hin.
    rewrite !elem_of_cons, elem_of_nil in Hin. rewrite !elem_of_cons, elem_of_nil.
    destruct Hin as [H|[H|[H|[H|[H|[]]]]]]; injection H as ->; tauto.
  - intros (rest & -> & Hin). split; [eauto|].
    rewrite toLowerCase_utm.
    rewrite !elem_of_cons, elem_of_nil in Hin. rewrite !elem_of_cons, elem_of_nil.
    destruct Hin as [->|[->|[->|[->|[->|[]]]]]]; tauto.
Qed.

Lemma word_char_lower c : word_char (JS.toLowerCase_char c) = true → word_char c = true.
Proof. destruct c as [[] [] [] [] [] [] [] []]; vm_compute; congruence. Qed.

Lemma word_char_plain c :
  word_char c = true → JS.unreserved c = true ∧ Cookie.valid_name_char c = true.
Proof. destruct c as [[] [] [] [] [] [] [] []]; vm_compute; intros H; by try discriminate H. Qed.

Lemma all_word_chars_lower s :
  Cookie.all_chars word_char (JS.toLowerCase s) = true →
  Cookie.all_chars word_char s = true.
Proof.
  induction s as [|c s IH]; [done|].
  cbn [JS.toLowerCase Cookie.all_chars]. rewrite !andb_true_iff.
  intros [Hc Hs]. split; [by apply word_char_lower|by apply IH].
Qed.

Lemma encodeURIComponent_unreserved s :
  Cookie.all_chars JS.unreserved s = true → JS.encodeURIComponent s = s.
Proof.
  induction s as [|c s IH]; [done|].
  cbn [Cookie.all_chars JS.encodeURIComponent]. rewrite andb_true_iff.
  intros [-> Hs]. by rewrite IH.
Qed.

Lemma accepted_word_chars k :
  accepted k = true → k ≠ "" ∧ Cookie.all_chars word_char k = true.
Proof.
  intros Hk. apply accepted_split in Hk as [Hp Hin]. split.
  - intros ->. discriminate Hp.
  - apply all_word_chars_lower.
    unfold Utm.VALID_UTM_PARAMS in Hin.
    rewrite !elem_of_cons, elem_of_nil in Hin.
    destruct Hin as [->|[->|[->|[->|[->|[]]]]]]; reflexivity.
Qed.

(** X9: the keys that [saveUTM], [getUTM] and [getUTMs] accept are exactly
    the strings made of the prefix [utm_], written in lower case, followed
    by one of [source], [medium], [campaign], [term], [content] in any mix
    of upper and lower case. *)
Theorem accepted_iff_prefixed_name k :
  (JS.startsWith k Utm.UTM_PREFIX && Utm.isValidUTMParam k = true) ↔
  ∃ rest, k = "utm_" +:+ rest ∧ JS.toLowerCase rest ∈ parameter_names.
Proof. apply accepted_names. Qed.

(** X10: every key that the engine accepts is made of ASCII letters and
    underscores: it is a valid cookie name for [isValidCookieName], it is
    left as it is by [encodeURIComponent], and so the string generated for
    it starts with the key itself, followed by the equals sign. *)
Theorem accepted_key_is_plain k :
  accepted k = true →
  Cookie.all_chars word_char k = true
  ∧ Cookie.isValidCookieName k = true
  ∧ JS.encodeURIComponent k = k
  ∧ ∀ now v o,
      Cookie.generateCookieString now k v o =
      k +:+ "=" +:+ JS.encodeURIComponent v +:+ "; expires=" +:+
      JS.toUTCString (Cookie.expires_at now o) +:+ "; path=" +:+
      Cookie.template_text (Cookie.path o) +:+ Cookie.domain_segment o +:+
      Cookie.sameSite_segment o +:+ Cookie.secure_segment o.
Proof.
  intros Hk. destruct (accepted_word_chars k Hk) as [Hne Hw].
  assert (Henc : JS.encodeURIComponent k = k).
  { apply encodeURIComponent_unreserved. revert Hw. apply all_chars_impl.
    intros c Hc. by apply word_char_plain. }
  split; [exact Hw|]. split; [|split; [exact Henc|]].
  - unfold Cookie.isValidCookieName. apply andb_true_iff. split.
    + apply negb_true_iff, String.eqb_neq, Hne.
    + revert Hw. apply all_chars_impl. intros c Hc. by apply word_char_plain.
  - intros now v o. unfold Cookie.generateCookieString.
    rewrite Henc, !append_assoc. reflexivity.
Qed.

Lemma accepted_key_is_plain_witness :
  accepted "utm_Source" = true
  ∧ Cookie.isValidCookieName "utm_Source" = true
  ∧ JS.encodeURIComponent "utm_Source" = "utm_Source".
Proof.
  split; [reflexivity|].
  destruct (accepted_key_is_plain "utm_Source" eq_refl) as (_ & Hv & He & _).
  split; [exact Hv|exact He].
Defined.

End AcceptedKeys.

(** ** The attribution engine of [utm.ts], continued *)

Section EngineLaws.

Implicit Types (st : Utm.State) (k v : string).

Lemma saveUTM_outcomes k v st :
  (accepted k = false ∧ Utm.saveUTM k v st = (JS.Throw (rejection k), st))
  ∨ (accepted k = true
     ∧ (Utm.saveUTM k v st = (JS.Normal tt, st)
        ∨ Utm.saveUTM k v st = (JS.Normal tt, written k v st)
        ∨ ∃ e, Utm.attribution (Utm.currentConfig st) = Utm.dynamic
               ∧ Utm.saveUTM k v st =
                 (JS.Normal tt, reported "Error in attribution callback:" e st))).
Proof.
  destruct (accepted k) eqn:Hk; [right|left].
  - split; [done|]. rewrite (saveUTM_accepted k v st Hk).
    unfold Utm.shouldSaveUTM. js_unfold.
    destruct (Utm.attribution (Utm.currentConfig st)) eqn:Hs.
    + destruct (bool_decide _); eauto.
    + eauto.
    + destruct (Utm.attributionCallback (Utm.currentConfig st)) as [cb|]; [|eauto].
      destruct (cb _ v) as [r|e]; [destruct (bool_decide _); eauto|].
      right. right. exists e. done.
  - split; [done|]. by apply saveUTM_rejected.
Qed.

Lemma saveUTM_currentConfig k v st :
  Utm.currentConfig (Utm.saveUTM k v st).2 = Utm.currentConfig st.
Proof.
  destruct (saveUTM_outcomes k v st) as [[_ ->]|[_ [->|[->|(e & _ & ->)]]]]; reflexivity.
Qed.

Lemma saveUTM_frame k k' v st :
  k ≠ k' →
  Cookie.getCookie k' (Utm.world (Utm.saveUTM k v st).2) =
  Cookie.getCookie k' (Utm.world st).
Proof.
  intros Hne.
  destruct (saveUTM_outcomes k v st) as [[_ ->]|[_ [->|[->|(e & _ & ->)]]]];
    try reflexivity.
  cbn [snd]. unfold written, Utm.with_world. cbn [Utm.world].
  by apply getCookie_setCookie_ne.
Qed.

(** X11: a call of [saveUTM] ends in one of four ways and no other: it
    throws the rejection of the key and leaves the state as it was; it
    returns having done nothing; it returns having written the value under
    the key with the options of the policy; or, under the dynamic strategy
    only, it returns having printed the error of the callback. It never
    changes the policy. *)
Theorem saveUTM_four_outcomes k v st :
  ((accepted k = false ∧ Utm.saveUTM k v st = (JS.Throw (rejection k), st))
   ∨ (accepted k = true
      ∧ (Utm.saveUTM k v st = (JS.Normal tt, st)
         ∨ Utm.saveUTM k v st = (JS.Normal tt, written k v st)
         ∨ ∃ e, Utm.attribution (Utm.currentConfig st) = Utm.dynamic
                ∧ Utm.saveUTM k v st =
                  (JS.Normal tt, reported "Error in attribution callback:" e st))))
  ∧ Utm.currentConfig (Utm.saveUTM k v st).2 = Utm.currentConfig st
  ∧ Cookie.Date_now (Utm.world (Utm.saveUTM k v st).2) = Cookie.Date_now (Utm.world st).
Proof.
  split; [apply saveUTM_outcomes|]. split; [apply saveUTM_currentConfig|].
  destruct (saveUTM_outcomes k v st) as [[_ ->]|[_ [->|[->|(e & _ & ->)]]]];
    reflexivity.
Qed.

(** X12: [saveUTM] on one key never changes what is stored under another
    key, whatever the strategy and whatever the outcome. Keys are compared
    as written: [utm_Source] and [utm_source] are two entries. *)
Theorem saveUTM_other_keys_untouched k k' v st :
  k ≠ k' →
  Cookie.getCookie k' (Utm.world (Utm.saveUTM k v st).2) =
    Cookie.getCookie k' (Utm.world st)
  ∧ Cookie.memoryStorage (Utm.world (Utm.saveUTM k v st).2) !! k' =
    Cookie.memoryStorage (Utm.world st) !! k'.
Proof.
  intros Hne. split; [by apply saveUTM_frame|].
  destruct (saveUTM_outcomes k v st) as [[_ ->]|[_ [->|[->|(e & _ & ->)]]]];
    try reflexivity.
  cbn [snd]. unfold written, Utm.with_world. cbn [Utm.world].
  by rewrite memoryStorage_setCookie, lookup_insert_ne.
Qed.

Lemma saveUTM_other_keys_witness :
  "utm_Source" ≠ "utm_source"
  ∧ Cookie.getCookie "utm_source"
      (Utm.world (Utm.saveUTM "utm_Source" "google" Fixture.returning_visitor).2)
    = Cookie.getCookie "utm_source" (Utm.world Fixture.returning_visitor).
Proof.
  assert (Hne : "utm_Source" ≠ "utm_source") by discriminate.
  split; [exact Hne|].
  apply (saveUTM_other_keys_untouched "utm_Source" "utm_source" "google"
           Fixture.returning_visitor Hne).
Defined.

(** X13: under the last-touch strategy the latest value wins: after
    [saveUTM] of [a] and then of [b] on an accepted key, [getUTM] returns
    [b], whatever was stored before. *)
Theorem last_touch_latest_wins k a b st :
  Utm.attribution (Utm.currentConfig st) = Utm.last →
  accepted k = true →
  ((Utm.saveUTM k a;; Utm.saveUTM k b;; Utm.getUTM k) st).1 = JS.Normal (Some b)
  ∧ Utm.saveUTM k a st = (JS.Normal tt, written k a st).
Proof.
  intros Hs Hk. split; [|by apply saveUTM_last].
  rewrite run_bind, (saveUTM_last k a st Hs Hk).
  rewrite run_bind, (saveUTM_last k b (written k a st) Hs Hk).
  rewrite (getUTM_accepted k _ Hk). cbn [fst].
  by rewrite (getCookie_written k b (written k a st)).
Qed.

Lemma last_touch_latest_wins_witness :
  Utm.attribution (Utm.currentConfig Scenario.fresh) = Utm.last
  ∧ accepted "utm_source" = true
  ∧ ((Utm.saveUTM "utm_source" "a";; Utm.saveUTM "utm_source" "b";;
      Utm.getUTM "utm_source") Scenario.fresh).1 = JS.Normal (Some "b").
Proof.
  split; [reflexivity|]. split; [reflexivity|].
  apply (last_touch_latest_wins "utm_source" "a" "b" Scenario.fresh eq_refl eq_refl).
Defined.

Lemma getUTMs_lookup_total st k :
  Utm.getUTMs st !! k =
  if accepted k then Cookie.getCookie k (Utm.world st) else None.
Proof.
  destruct (accepted k) eqn:Hk.
  - destruct (Cookie.getCookie k (Utm.world st)) as [v|] eqn:Hg.
    + by apply getUTMs_lookup.
    + destruct (Utm.getUTMs st !! k) as [v|] eqn:Hl; [|done].
      apply getUTMs_lookup in Hl as [Hl _]. congruence.
  - destruct (Utm.getUTMs st !! k) as [v|] eqn:Hl; [|done].
    apply getUTMs_lookup in Hl as [_ Hl]. congruence.
Qed.

(** X14: [getUTM] and [getUTMs] agree: on an accepted key [getUTM] returns
    what the snapshot of [getUTMs] holds under that key, and a key on which
    [getUTM] throws is never a key of the snapshot. Neither changes the
    state. *)
Theorem getUTM_agrees_with_getUTMs k st :
  Utm.getUTM k st =
    (if accepted k then (JS.Normal (Utm.getUTMs st !! k), st)
     else (JS.Throw (rejection k), st))
  ∧ Utm.getUTMs st !! k =
    (if accepted k then Cookie.getCookie k (Utm.world st) else None).
Proof.
  split; [|apply getUTMs_lookup_total].
  rewrite getUTMs_lookup_total.
  destruct (accepted k) eqn:Hk.
  - by apply getUTM_accepted.
  - by apply getUTM_rejected.
Qed.

(** X15: the snapshot of [getUTMs] follows the store: a cookie written by
    any other code shows up in it exactly when its name is an accepted key,
    and a cookie removed by any other code disappears from it. *)
Theorem getUTMs_follows_store name value o st :
  Utm.getUTMs (Utm.with_world (Cookie.setCookie name value o) st) =
    (if accepted name then <[name := value]> (Utm.getUTMs st) else Utm.getUTMs st)
  ∧ Utm.getUTMs (Utm.with_world (Cookie.removeCookie name o) st) =
    delete name (Utm.getUTMs st).
Proof.
  split; apply map_eq; intros k; rewrite getUTMs_lookup_total;
    unfold Utm.with_world; cbn [Utm.world].
  - destruct (accepted name) eqn:Hn.
    + rewrite lookup_insert, getUTMs_lookup_total.
      destruct (decide (name = k)) as [->|Hne].
      * by rewrite Hn, getCookie_setCookie_eq.
      * by rewrite (getCookie_setCookie_ne name k value o _ Hne).
    + rewrite getUTMs_lookup_total.
      destruct (accepted k) eqn:Hk; [|done].
      rewrite getCookie_setCookie_ne; [done|]. intros ->. congruence.
  - rewrite lookup_delete, getUTMs_lookup_total.
    destruct (decide (name = k)) as [->|Hne].
    + rewrite getCookie_removeCookie_eq. by destruct (accepted k).
    + unfold Cookie.getCookie. rewrite memoryStorage_removeCookie.
      by rewrite lookup_delete_ne.
Qed.

(** *** The batch operation, continued *)

Lemma batch_step_currentConfig k v st :
  Utm.currentConfig
    (if accepted k then (Utm.saveUTM k v st).2 else rejection_reported k st) =
  Utm.currentConfig st.
Proof. destruct (accepted k); [apply saveUTM_currentConfig|reflexivity]. Qed.

Lemma saveUTMs_currentConfig params st :
  Utm.currentConfig (Utm.saveUTMs params st).2 = Utm.currentConfig st.
Proof.
  revert st. induction params as [|[k v] params IH]; intros st; [reflexivity|].
  rewrite saveUTMs_cons, IH. apply batch_step_currentConfig.
Qed.

Lemma saveUTM_first_preserves k k' v p st :
  Utm.attribution (Utm.currentConfig st) = Utm.first →
  Cookie.getCookie k (Utm.world st) = Some p →
  Cookie.getCookie k (Utm.world (Utm.saveUTM k' v st).2) = Some p.
Proof.
  intros Hs Hp. destruct (decide (k' = k)) as [->|Hne].
  - destruct (accepted k) eqn:Hk.
    + by rewrite (saveUTM_first_present k v st p Hs Hk Hp).
    + by rewrite (saveUTM_rejected k v st Hk).
  - by rewrite (saveUTM_frame k' k v st Hne).
Qed.

(** X16: under the first-touch strategy a batch never replaces a stored
    value: whatever [saveUTMs] is given, every entry stored before the call
    is stored with the same value after it, and the policy is unchanged. *)
Theorem first_touch_batch_preserves params k p st :
  Utm.attribution (Utm.currentConfig st) = Utm.first →
  Cookie.getCookie k (Utm.world st) = Some p →
  Cookie.getCookie k (Utm.world (Utm.saveUTMs params st).2) = Some p
  ∧ Utm.currentConfig (Utm.saveUTMs params st).2 = Utm.currentConfig st.
Proof.
  intros Hs Hp. split; [|apply saveUTMs_currentConfig].
  revert st Hs Hp. induction params as [|[k' v] params IH]; intros st Hs Hp; [done|].
  rewrite saveUTMs_cons. apply IH.
  - by rewrite batch_step_currentConfig.
  - destruct (accepted k'); [by apply saveUTM_first_preserves|done].
Qed.

Lemma first_touch_batch_witness :
  Utm.attribution (Utm.currentConfig Fixture.returning_visitor) = Utm.first
  ∧ Cookie.getCookie "utm_source" (Utm.world Fixture.returning_visitor) = Some "newsletter"
  ∧ Cookie.getCookie "utm_source"
      (Utm.world (Utm.saveUTMs [("utm_source", "google"); ("utm_medium", "cpc")]
                    Fixture.returning_visitor).2) = Some "newsletter".
Proof.
  split; [reflexivity|]. split; [reflexivity|].
  apply (first_touch_batch_preserves [("utm_source", "google"); ("utm_medium", "cpc")]
           "utm_source" "newsletter" Fixture.returning_visitor eq_refl eq_refl).
Defined.

(** X17: a batch touches only the accepted keys it names: a key that the
    guard rejects, or that is not among the keys of the batch, holds after
    [saveUTMs] what it held before, under every strategy. *)
Theorem saveUTMs_touches_only_accepted_batch_keys params k st :
  accepted k = false ∨ (k ∉ params.*1) →
  Cookie.getCookie k (Utm.world (Utm.saveUTMs params st).2) =
  Cookie.getCookie k (Utm.world st).
Proof.
  revert st. induction params as [|[k' v] params IH]; intros st Hk; [done|].
  rewrite saveUTMs_cons, IH.
  - destruct (accepted k') eqn:Hk'; [|done].
    apply saveUTM_frame. intros ->.
    destruct Hk as [Hk|Hk]; [congruence|].
    apply Hk. cbn. left.
  - destruct Hk as [Hk|Hk]; [by left|right].
    intros Hin. apply Hk. cbn. by right.
Qed.

Lemma saveUTMs_touches_only_witness :
  (accepted "bogus" = false
   ∨ ("bogus" ∉ [("utm_source", "google"); ("bogus", "x")].*1))
  ∧ Cookie.getCookie "bogus"
      (Utm.world (Utm.saveUTMs [("utm_source", "google"); ("bogus", "x")]
                    Scenario.fresh).2)
    = Cookie.getCookie "bogus" (Utm.world Scenario.fresh).
Proof.
  assert (Hk : accepted "bogus" = false
               ∨ ("bogus" ∉ [("utm_source", "google"); ("bogus", "x")].*1))
    by (left; reflexivity).
  split; [exact Hk|].
  apply (saveUTMs_touches_only_accepted_batch_keys
           [("utm_source", "google"); ("bogus", "x")] "bogus" Scenario.fresh Hk).
Defined.

Lemma saveUTM_console_static k v st :
  Utm.attribution (Utm.currentConfig st) ≠ Utm.dynamic →
  accepted k = true →
  Cookie.console (Utm.world (Utm.saveUTM k v st).2) = Cookie.console (Utm.world st).
Proof.
  intros Hs Hk.
  destruct (saveUTM_outcomes k v st) as [[Hr _]|[_ [->|[->|(e & Hd & _)]]]];
    [congruence|reflexivity|reflexivity|done].
Qed.

(** X18: under the first-touch and the last-touch strategy, what
    [saveUTMs] prints is exactly one [console.error] per entry with a
    rejected key, in the order of the batch (the latest first in the log),
    each with the key and the message of its rejection; entries with
    accepted keys print nothing. *)
Theorem saveUTMs_console_log params st :
  Utm.attribution (Utm.currentConfig st) ≠ Utm.dynamic →
  Cookie.console (Utm.world (Utm.saveUTMs params st).2) =
  reverse
    ((λ entry, {| Cookie.label := "Error saving UTM parameter " +:+ entry.1 +:+ ":";
                  Cookie.error := rejection entry.1 |}) <$> rejected_entries params)
  ++ Cookie.console (Utm.world st).
Proof.
  revert st. induction params as [|[k v] params IH]; intros st Hs; [done|].
  rewrite saveUTMs_cons, IH by (by rewrite batch_step_currentConfig).
  unfold rejected_entries. cbn [List.filter fst].
  destruct (accepted k) eqn:Hk; cbn [negb].
  - by rewrite (saveUTM_console_static k v st Hs Hk).
  - rewrite fmap_cons, reverse_cons, <- app_assoc. reflexivity.
Qed.

Lemma saveUTMs_console_log_witness :
  Utm.attribution (Utm.currentConfig Scenario.fresh) ≠ Utm.dynamic
  ∧ Cookie.console
      (Utm.world (Utm.saveUTMs [("utm_source", "google"); ("bogus", "x")] Scenario.fresh).2)
    = [{| Cookie.label := "Error saving UTM parameter bogus:";
          Cookie.error := rejection "bogus" |}].
Proof.
  assert (Hs : Utm.attribution (Utm.currentConfig Scenario.fresh) ≠ Utm.dynamic)
    by discriminate.
  split; [exact Hs|].
  apply (saveUTMs_console_log [("utm_source", "google"); ("bogus", "x")]
           Scenario.fresh Hs).
Defined.

(** X19: [configureUTM] replaces the policy wholesale, and the next write
    uses the new policy only: after [configureUTM] with options that select
    the last-touch strategy (or no strategy), [saveUTM] stores the entry
    with the configured options, each missing option falling back to the
    default and not to the policy that was in force before; the entries of
    other keys keep what they had. *)
Theorem configureUTM_then_saveUTM c k v st :
  default Utm.last (Utm.p_attribution c) = Utm.last →
  accepted k = true →
  Cookie.memoryStorage (Utm.world ((Utm.configureUTM c;; Utm.saveUTM k v) st).2) !! k =
    Some {| Cookie.value := v;
            Cookie.options :=
              {| Cookie.days := default 30 (Utm.p_expirationDays c);
                 Cookie.domain := default None (Utm.p_domain c);
                 Cookie.path := default (Some "/") (Utm.p_path c);
                 Cookie.secure := default (Some true) (Utm.p_secure c);
                 Cookie.sameSite := default (Some Cookie.Lax) (Utm.p_sameSite c) |} |}
  ∧ ∀ k', k ≠ k' →
      Cookie.memoryStorage (Utm.world ((Utm.configureUTM c;; Utm.saveUTM k v) st).2) !! k' =
      Cookie.memoryStorage (Utm.world st) !! k'.
Proof.
  intros Hlast Hk. rewrite run_bind.
  destruct (Utm.configureUTM c st) as [r st1] eqn:Hc.
  unfold Utm.configureUTM, JS.modify in Hc. injection Hc as <- <-.
  match goal with |- context [Utm.saveUTM k v ?s] => set (st1 := s) end.
  assert (Hs : Utm.attribution (Utm.currentConfig st1) = Utm.last) by exact Hlast.
  rewrite (saveUTM_last k v st1 Hs Hk). cbn [snd].
  unfold written, Utm.with_world. cbn [Utm.world].
  rewrite memoryStorage_setCookie. split.
  - by rewrite lookup_insert_eq.
  - intros k' Hne. by rewrite lookup_insert_ne.
Qed.

Lemma configureUTM_then_saveUTM_witness :
  default Utm.last (Utm.p_attribution
     {| Utm.p_attribution := None; Utm.p_expirationDays := Some 90;
        Utm.p_domain := None; Utm.p_path := None; Utm.p_secure := None;
        Utm.p_sameSite := None; Utm.p_attributionCallback := None |}) = Utm.last
  ∧ accepted "utm_source" = true
  ∧ (Cookie.days ∘ Cookie.options) <$>
      Cookie.memoryStorage
        (Utm.world
           ((Utm.configureUTM
               {| Utm.p_attribution := None; Utm.p_expirationDays := Some 90;
                  Utm.p_domain := None; Utm.p_path := None; Utm.p_secure := None;
                  Utm.p_sameSite := None; Utm.p_attributionCallback := None |};;
             Utm.saveUTM "utm_source" "google") Fixture.returning_visitor).2)
      !! "utm_source" = Some 90.
Proof.
  split; [reflexivity|]. split; [reflexivity|].
  destruct (configureUTM_then_saveUTM
              {| Utm.p_attribution := None; Utm.p_expirationDays := Some 90;
                 Utm.p_domain := None; Utm.p_path := None; Utm.p_secure := None;
                 Utm.p_sameSite := None; Utm.p_attributionCallback := None |}
              "utm_source" "google" Fixture.returning_visitor eq_refl eq_refl)
    as [Hstored _].
  rewrite Hstored. reflexivity.
Defined.

End EngineLaws.

(** ** The entry point of [index.ts], continued *)

Section EntryPointLaws.

Implicit Types (ist : Index.State) (k v : string) (days : option Z).

Lemma validateUTMKey_accepted k ist :
  accepted k = true → Index.validateUTMKey k ist = (JS.Normal tt, ist).
Proof.
  unfold accepted, Utm.isValidUTMParam, Utm.UTM_PREFIX, Index.validateUTMKey.
  intros Hk. apply andb_true_iff in Hk as [-> Hl].
  change Index.validParams with Utm.VALID_UTM_PARAMS. by rewrite Hl.
Qed.

Lemma validateUTMKey_rejected k ist :
  accepted k = false → ∃ e, Index.validateUTMKey k ist = (JS.Throw e, ist).
Proof.
  unfold accepted, Utm.isValidUTMParam, Utm.UTM_PREFIX, Index.validateUTMKey.
  intros Hk. destruct (JS.startsWith k "utm_"); cbn [negb andb] in *; [|eauto].
  change Index.validParams with Utm.VALID_UTM_PARAMS. rewrite Hk. cbn [negb]. eauto.
Qed.

Lemma Index_saveUTMs_rejected k v days ist :
  accepted k = false → ∃ e, Index.saveUTMs k v days ist = (JS.Throw e, ist).
Proof.
  intros Hk. destruct (validateUTMKey_rejected k ist Hk) as [e He].
  exists e. unfold Index.saveUTMs. by rewrite run_bind, He.
Qed.

Lemma Index_getUTM_rejected k ist :
  accepted k = false → ∃ e, Index.getUTM k ist = (JS.Throw e, ist).
Proof.
  intros Hk. destruct (validateUTMKey_rejected k ist Hk) as [e He].
  exists e. unfold Index.getUTM. by rewrite run_bind, He.
Qed.

Lemma Index_saveUTMs_outcomes k v days ist :
  accepted k = true →
  Index.saveUTMs k v days ist = (JS.Normal tt, ist)
  ∨ Index.saveUTMs k v days ist =
    (JS.Normal tt,
     Index.with_world
       (Cookie.setCookie k v (Index.cookieOptions (Index.currentConfig ist) days)) ist)
  ∨ ∃ e, Index.saveUTMs k v days ist =
         (JS.Normal tt,
          Index.with_world
            (λ w, Cookie.console_error w "Error in attribution callback:" e) ist).
Proof.
  intros Hk. unfold Index.saveUTMs.
  rewrite run_bind, (validateUTMKey_accepted k ist Hk).
  rewrite run_bind. unfold JS.get at 1. cbv iota.
  rewrite run_bind. unfold Index.shouldSaveUTM. js_unfold.
  destruct (Index.attribution (Index.currentConfig ist)).
  - destruct (bool_decide _); eauto.
  - eauto.
  - destruct (Index.attributionCallback (Index.currentConfig ist)) as [cb|]; [|eauto].
    destruct (cb _ v) as [r|e]; [destruct (bool_decide _); eauto|eauto].
Qed.

Lemma Index_saveUTMs_normal k v days ist :
  accepted k = true → (Index.saveUTMs k v days ist).1 = JS.Normal tt.
Proof.
  intros Hk.
  destruct (Index_saveUTMs_outcomes k v days ist Hk) as [->|[->|[e ->]]]; reflexivity.
Qed.

(** X20: the entry point applies the same guard as [utm.ts]:
    [validateUTMKey] returns exactly on the accepted keys and never changes
    the state; on any other key [saveUTMs] and [getUTM] throw before
    reading or writing anything. *)
Theorem validateUTMKey_same_guard k v days ist :
  ((Index.validateUTMKey k ist).1 = JS.Normal tt ↔ accepted k = true)
  ∧ (Index.validateUTMKey k ist).2 = ist
  ∧ (if accepted k then
       (Index.saveUTMs k v days ist).1 = JS.Normal tt
       ∧ ∃ r, Index.getUTM k ist = (JS.Normal r, ist)
     else
       (∃ e, Index.saveUTMs k v days ist = (JS.Throw e, ist))
       ∧ ∃ e, Index.getUTM k ist = (JS.Throw e, ist)).
Proof.
  split; [|split; [apply validateUTMKey_state|]].
  - rewrite validateUTMKey_normal, accepted_split. reflexivity.
  - destruct (accepted k) eqn:Hk.
    + split; [by apply Index_saveUTMs_normal|].
      unfold Index.getUTM. rewrite run_bind, (validateUTMKey_accepted k ist Hk).
      rewrite run_bind. unfold JS.get. cbv iota.
      destruct (Cookie.getCookie k (Index.world ist)); eauto.
    + split; [by apply Index_saveUTMs_rejected|by apply Index_getUTM_rejected].
Qed.

(** X21: [getUTM] of the entry point reports a stored empty string as
    [undefined]: on an accepted key it returns the stored value when that
    is a non-empty string and [undefined] both when nothing is stored and
    when the empty string is stored, while [getUTMs] still lists the key
    with its empty value. *)
Theorem Index_getUTM_empty_is_undefined k ist :
  accepted k = true →
  ((Index.getUTM k ist).1 = JS.Normal None ↔
   Cookie.getCookie k (Index.world ist) = None
   ∨ Cookie.getCookie k (Index.world ist) = Some "")
  ∧ (∀ x, (Index.getUTM k ist).1 = JS.Normal (Some x) ↔
          Cookie.getCookie k (Index.world ist) = Some x ∧ x ≠ "")
  ∧ Index.getUTMs ist !! k = Cookie.getCookie k (Index.world ist).
Proof.
  intros Hk. unfold Index.getUTM.
  rewrite run_bind, (validateUTMKey_accepted k ist Hk).
  rewrite run_bind. unfold JS.get. cbv iota.
  split; [|split].
  - destruct (Cookie.getCookie k (Index.world ist)) as [x|]; cbn [fst].
    + destruct (String.eqb_spec x ""); subst; cbn [fst].
      * split; [by right|done].
      * split; [done|]. intros [|[= ->]]; congruence.
    + split; [by left|done].
  - intros y. destruct (Cookie.getCookie k (Index.world ist)) as [x|]; cbn [fst].
    + destruct (String.eqb_spec x ""); subst; cbn [fst].
      * split; [done|]. intros [[= <-] Hy]. done.
      * split; [by intros [= <-]|by intros [[= <-] _]].
    + split; [done|by intros [? _]].
  - destruct (Index.getUTMs ist !! k) as [x|] eqn:Hl.
    + apply Index_getUTMs_lookup in Hl as [Hl _]. done.
    + destruct (Cookie.getCookie k (Index.world ist)) as [x|] eqn:Hg; [|done].
      assert (Index.getUTMs ist !! k = Some x) as Hx; [|congruence].
      apply Index_getUTMs_lookup. split; [done|].
      by apply accepted_split in Hk as [? _].
Qed.

Lemma Index_getUTM_empty_witness :
  accepted "utm_term" = true
  ∧ (Index.getUTM "utm_term" empty_valued).1 = JS.Normal None
  ∧ Index.getUTMs empty_valued !! "utm_term" = Some "".
Proof.
  split; [reflexivity|].
  destruct (Index_getUTM_empty_is_undefined "utm_term" empty_valued eq_refl)
    as (Hnone & _ & Hall).
  split.
  - apply Hnone. right. reflexivity.
  - rewrite Hall. reflexivity.
Defined.

(** X22: [saveUTMs] of the entry point on one key never changes what is
    stored under another key, nor the configuration, whatever the strategy
    and the outcome. *)
Theorem Index_saveUTMs_other_keys_untouched k k' v days ist :
  k ≠ k' →
  Cookie.getCookie k' (Index.world (Index.saveUTMs k v days ist).2) =
    Cookie.getCookie k' (Index.world ist)
  ∧ Index.currentConfig (Index.saveUTMs k v days ist).2 = Index.currentConfig ist.
Proof.
  intros Hne. destruct (accepted k) eqn:Hk.
  - destruct (Index_saveUTMs_outcomes k v days ist Hk) as [->|[->|[e ->]]];
      try (split; reflexivity).
    split; [|reflexivity]. cbn [snd]. unfold Index.with_world. cbn [Index.world].
    by apply getCookie_setCookie_ne.
  - destruct (Index_saveUTMs_rejected k v days ist Hk) as [e ->]. done.
Qed.

Lemma Index_saveUTMs_other_keys_witness :
  "utm_source" ≠ "utm_term"
  ∧ Cookie.getCookie "utm_term"
      (Index.world (Index.saveUTMs "utm_source" "google" None empty_valued).2)
    = Cookie.getCookie "utm_term" (Index.world empty_valued).
Proof.
  assert (Hne : "utm_source" ≠ "utm_term") by discriminate.
  split; [exact Hne|].
  apply (Index_saveUTMs_other_keys_untouched "utm_source" "utm_term" "google" None
           empty_valued Hne).
Defined.

(** X23: the dynamic rule of the entry point: on an accepted key, with a
    callback configured, [saveUTMs] writes exactly when the callback,
    applied to the stored value (or the empty string) and the incoming
    value, returns the incoming value; any other returned value leaves the
    state as it was, and a callback that throws only adds one
    [console.error]. *)
Theorem Index_saveUTMs_dynamic k v days ist cb :
  Index.attribution (Index.currentConfig ist) = Utm.dynamic →
  Index.attributionCallback (Index.currentConfig ist) = Some cb →
  accepted k = true →
  Index.saveUTMs k v days ist =
  match cb (default "" (Cookie.getCookie k (Index.world ist))) v with
  | JS.Normal r =>
      if bool_decide (r = v) then
        (JS.Normal tt,
         Index.with_world
           (Cookie.setCookie k v (Index.cookieOptions (Index.currentConfig ist) days)) ist)
      else (JS.Normal tt, ist)
  | JS.Throw e =>
      (JS.Normal tt,
       Index.with_world
         (λ w, Cookie.console_error w "Error in attribution callback:" e) ist)
  end.
Proof.
  intros Hs Hcb Hk. unfold Index.saveUTMs.
  rewrite run_bind, (validateUTMKey_accepted k ist Hk).
  rewrite run_bind. unfold JS.get at 1. cbv iota.
  rewrite run_bind. unfold Index.shouldSaveUTM. js_unfold. rewrite Hs, Hcb.
  destruct (cb _ v) as [r|e]; [|reflexivity].
  destruct (bool_decide (r = v)); reflexivity.
Qed.

Lemma Index_saveUTMs_dynamic_witness :
  Index.attribution (Index.currentConfig dynamic_index) = Utm.dynamic
  ∧ Index.attributionCallback (Index.currentConfig dynamic_index) =
    Some Scenario.prefer_google
  ∧ accepted "utm_source" = true
  ∧ Index.saveUTMs "utm_source" "bing" None dynamic_index = (JS.Normal tt, dynamic_index).
Proof.
  split; [reflexivity|]. split; [reflexivity|]. split; [reflexivity|].
  rewrite (Index_saveUTMs_dynamic "utm_source" "bing" None dynamic_index
             Scenario.prefer_google eq_refl eq_refl eq_refl).
  reflexivity.
Defined.

End EntryPointLaws.

(** ** The standalone build *)

Section Standalone.

Implicit Types (st : Umd.State) (k v : string).

Lemma Umd_saveUTM_run k v days st :
  Umd.saveUTM k v days st =
  ((Index.saveUTMs k v (Some (Index.days_or days 30)) (Umd.index st)).1,
   with_index st (Index.saveUTMs k v (Some (Index.days_or days 30)) (Umd.index st)).2).
Proof.
  unfold Umd.saveUTM, Umd.lift, with_index.
  by destruct (Index.saveUTMs k v _ (Umd.index st)).
Qed.

(** X24: through [UTMManager.saveUTM] the configured [expirationDays] is
    never used: when the call writes, the entry is stored with the number
    of days passed to it, and with 30 days when none or zero is passed,
    whatever [expirationDays] the configuration holds. *)
Theorem Umd_saveUTM_ignores_expirationDays k v days st :
  accepted k = true →
  (Index.shouldSaveUTM (Cookie.getCookie k (Index.world (Umd.index st))) v
     (Umd.index st)).1 = JS.Normal true →
  (Umd.saveUTM k v days st).1 = JS.Normal tt
  ∧ (Cookie.days ∘ Cookie.options) <$>
      Cookie.memoryStorage (Index.world (Umd.index (Umd.saveUTM k v days st).2)) !! k =
    Some (match days with
          | Some d => if d =? 0 then 30 else d
          | None => 30
          end).
Proof.
  intros Hk Hsave. rewrite Umd_saveUTM_run. cbn [fst snd with_index Umd.index].
  assert (Hvalid : (Index.validateUTMKey k (Umd.index st)).1 = JS.Normal tt)
    by by rewrite (validateUTMKey_accepted k _ Hk).
  rewrite (Index_saveUTMs_write k v _ (Umd.index st) Hvalid Hsave). cbn [fst snd].
  split; [done|].
  unfold Index.with_world. cbn [Index.world].
  rewrite memoryStorage_setCookie, lookup_insert_eq.
  cbn [fmap option_fmap option_map compose Cookie.options Cookie.days Cookie.spread
       Index.cookieOptions Cookie.p_days default].
  f_equal. unfold Index.days_or.
  destruct days as [d|]; [|reflexivity].
  destruct (Z.eqb_spec d 0) as [->|Hd]; [reflexivity|].
  by destruct (Z.eqb_spec d 0).
Qed.

Lemma Umd_saveUTM_ignores_expirationDays_witness :
  accepted "utm_source" = true
  ∧ (Index.shouldSaveUTM
       (Cookie.getCookie "utm_source" (Index.world (Umd.index Fixture.landing)))
       "google" (Umd.index Fixture.landing)).1 = JS.Normal true
  ∧ (Cookie.days ∘ Cookie.options) <$>
      Cookie.memoryStorage
        (Index.world (Umd.index (Umd.saveUTM "utm_source" "google" (Some 0)
                                   Fixture.landing).2)) !! "utm_source"
    = Some 30.
Proof.
  split; [reflexivity|]. split; [reflexivity|].
  destruct (Umd_saveUTM_ignores_expirationDays "utm_source" "google" (Some 0)
              Fixture.landing eq_refl eq_refl) as [_ Hd].
  exact Hd.
Defined.

Lemma capture_accepted urlParams captured st :
  Forall (λ entry, utm_prefixed entry = true → accepted entry.1 = true) urlParams →
  Umd.capture urlParams captured st =
  (JS.Normal (captured || existsb utm_prefixed urlParams),
   with_index st (captured_index urlParams (Umd.index st))).
Proof.
  intros Hall. revert captured st.
  induction Hall as [|[k v] urlParams Hk Hall IH]; intros captured st.
  - cbn. rewrite orb_false_r. by destruct st.
  - cbn [Umd.capture existsb]. unfold captured_index. cbn [List.filter].
    unfold utm_prefixed at 1 3. cbn [fst].
    unfold utm_prefixed in Hk. cbn [fst] in Hk.
    destruct (JS.startsWith k "utm_") eqn:Hp.
    + rewrite run_bind, Umd_saveUTM_run.
      change (Index.days_or None 30) with 30.
      rewrite (Index_saveUTMs_normal k v (Some 30) (Umd.index st) (Hk eq_refl)).
      rewrite IH. cbn [foldl fst snd with_index Umd.index orb].
      rewrite orb_true_r. reflexivity.
    + rewrite IH. reflexivity.
Qed.

(** X25: [autoCapture] does nothing and answers [false] when there is no
    [window] and when no key of the query starts with [utm_]: nothing is
    stored, nothing is printed and no event is dispatched. *)
Theorem autoCapture_nothing_to_capture st :
  List.filter utm_prefixed (default [] (Umd.window_search st)) = [] →
  Umd.autoCapture st = (JS.Normal false, st).
Proof.
  intros Hnone. unfold Umd.autoCapture. rewrite run_bind. unfold JS.get. cbv iota.
  destruct (Umd.window_search st) as [urlParams|] eqn:Hw; [|reflexivity].
  change (List.filter utm_prefixed urlParams = []) in Hnone.
  assert (Hall : Forall (λ entry, utm_prefixed entry = true → accepted entry.1 = true)
                   urlParams).
  { apply Forall_forall. intros entry Hin Hp.
    assert (entry ∈ List.filter utm_prefixed urlParams) as Hf.
    { apply list_elem_of_In, filter_In. split; [by apply list_elem_of_In|done]. }
    rewrite Hnone in Hf. by apply elem_of_nil in Hf. }
  rewrite run_bind, (capture_accepted urlParams false st Hall).
  assert (Hex : existsb utm_prefixed urlParams = false).
  { apply not_true_is_false. intros Hex. apply existsb_exists in Hex as (entry & Hin & Hp).
    assert (In entry (List.filter utm_prefixed urlParams)) as Hf
      by (apply filter_In; done).
    by rewrite Hnone in Hf. }
  rewrite Hex. cbn [orb]. unfold captured_index. rewrite Hnone. cbn [foldl].
  rewrite run_bind. cbn. by destruct st.
Qed.

Lemma autoCapture_nothing_witness :
  List.filter utm_prefixed
    (default [] (Umd.window_search
       {| Umd.index := Scenario.fresh_index;
          Umd.window_search := Some [("ref", "x")]; Umd.dispatched := [] |})) = []
  ∧ Umd.autoCapture
      {| Umd.index := Scenario.fresh_index;
         Umd.window_search := Some [("ref", "x")]; Umd.dispatched := [] |}
    = (JS.Normal false,
       {| Umd.index := Scenario.fresh_index;
          Umd.window_search := Some [("ref", "x")]; Umd.dispatched := [] |}).
Proof.
  split; [reflexivity|].
  apply (autoCapture_nothing_to_capture
           {| Umd.index := Scenario.fresh_index;
              Umd.window_search := Some [("ref", "x")]; Umd.dispatched := [] |} eq_refl).
Defined.

(** X26: when every key of the query that starts with [utm_] is an
    accepted key and there is at least one, [autoCapture] answers [true],
    the entry point has run [saveUTMs(key, value, 30)] on those entries in
    the order of the query, and exactly one event is dispatched, whose
    detail is the snapshot of [getUTMs] taken after the last save. *)
Theorem autoCapture_captures urlParams st :
  Umd.window_search st = Some urlParams →
  Forall (λ entry, utm_prefixed entry = true → accepted entry.1 = true) urlParams →
  List.filter utm_prefixed urlParams ≠ [] →
  (Umd.autoCapture st).1 = JS.Normal true
  ∧ Umd.index (Umd.autoCapture st).2 = captured_index urlParams (Umd.index st)
  ∧ Umd.dispatched (Umd.autoCapture st).2 =
    Index.getUTMs (captured_index urlParams (Umd.index st)) :: Umd.dispatched st.
Proof.
  intros Hw Hall Hsome. unfold Umd.autoCapture. rewrite run_bind. unfold JS.get. cbv iota.
  rewrite Hw, run_bind, (capture_accepted urlParams false st Hall).
  assert (Hex : existsb utm_prefixed urlParams = true).
  { destruct (List.filter utm_prefixed urlParams) as [|entry l] eqn:Hf; [done|].
    apply existsb_exists. exists entry.
    apply (filter_In utm_prefixed entry urlParams). rewrite Hf. by left. }
  rewrite Hex. cbn [orb]. rewrite run_bind. cbn. done.
Qed.

Lemma autoCapture_captures_witness :
  Umd.window_search Fixture.landing =
    Some [("utm_source", "google"); ("ref", "x"); ("utm_medium", "cpc")]
  ∧ (Umd.autoCapture Fixture.landing).1 = JS.Normal true
  ∧ Umd.dispatched (Umd.autoCapture Fixture.landing).2 =
    [ {[ "utm_source" := "google"; "utm_medium" := "cpc" ]} ].
Proof.
  split; [reflexivity|].
  assert (Hall : Forall (λ entry, utm_prefixed entry = true → accepted entry.1 = true)
                   [("utm_source", "google"); ("ref", "x"); ("utm_medium", "cpc")]).
  { repeat constructor; cbn; try discriminate. }
  assert (Hsome : List.filter utm_prefixed
                    [("utm_source", "google"); ("ref", "x"); ("utm_medium", "cpc")] ≠ [])
    by discriminate.
  destruct (autoCapture_captures _ Fixture.landing eq_refl Hall Hsome) as (Hr & _ & Hd).
  split; [exact Hr|]. rewrite Hd. by vm_compute.
Defined.

Lemma capture_app l1 l2 captured st :
  Forall (λ entry, utm_prefixed entry = true → accepted entry.1 = true) l1 →
  Umd.capture (l1 ++ l2) captured st =
  Umd.capture l2 (captured || existsb utm_prefixed l1)
    (with_index st (captured_index l1 (Umd.index st))).
Proof.
  intros Hall. revert captured st.
  induction Hall as [|[k v] l1 Hk Hall IH]; intros captured st.
  - cbn. rewrite orb_false_r. by destruct st.
  - rewrite <- app_comm_cons. cbn [Umd.capture existsb].
    unfold captured_index. cbn [List.filter].
    unfold utm_prefixed at 1 3. cbn [fst].
    unfold utm_prefixed in Hk. cbn [fst] in Hk.
    destruct (JS.startsWith k "utm_") eqn:Hp.
    + rewrite run_bind, Umd_saveUTM_run.
      change (Index.days_or None 30) with 30.
      rewrite (Index_saveUTMs_normal k v (Some 30) (Umd.index st) (Hk eq_refl)).
      rewrite IH. cbn [foldl fst snd with_index Umd.index orb].
      rewrite orb_true_r. reflexivity.
    + rewrite IH. reflexivity.
Qed.

(** X27: a query key that starts with [utm_] without being an accepted key
    makes [autoCapture] throw: the entries before it have been saved, the
    entries after it are not looked at, and no event is dispatched. *)
Theorem autoCapture_aborts_on_rejected_key l1 k v l2 st :
  Umd.window_search st = Some (l1 ++ (k, v) :: l2) →
  Forall (λ entry, utm_prefixed entry = true → accepted entry.1 = true) l1 →
  JS.startsWith k "utm_" = true →
  accepted k = false →
  (∃ e, (Umd.autoCapture st).1 = JS.Throw e)
  ∧ Umd.index (Umd.autoCapture st).2 = captured_index l1 (Umd.index st)
  ∧ Umd.dispatched (Umd.autoCapture st).2 = Umd.dispatched st.
Proof.
  intros Hw Hall Hp Hk. unfold Umd.autoCapture. rewrite run_bind. unfold JS.get. cbv iota.
  rewrite Hw, run_bind, (capture_app l1 _ false st Hall).
  cbn [Umd.capture]. rewrite Hp, run_bind, Umd_saveUTM_run.
  cbn [with_index Umd.index].
  destruct (Index_saveUTMs_rejected k v (Some (Index.days_or None 30))
              (captured_index l1 (Umd.index st)) Hk) as [e ->].
  cbn. eauto.
Qed.

Lemma autoCapture_aborts_witness :
  Umd.window_search Fixture.landing_bogus =
    Some ([("utm_source", "google")] ++ ("utm_bogus", "x") :: [("utm_medium", "cpc")])
  ∧ JS.startsWith "utm_bogus" "utm_" = true
  ∧ accepted "utm_bogus" = false
  ∧ (∃ e, (Umd.autoCapture Fixture.landing_bogus).1 = JS.Throw e)
  ∧ Umd.dispatched (Umd.autoCapture Fixture.landing_bogus).2 = [].
Proof.
  split; [reflexivity|]. split; [reflexivity|]. split; [reflexivity|].
  assert (Hall : Forall (λ entry, utm_prefixed entry = true → accepted entry.1 = true)
                   [("utm_source", "google")]).
  { repeat constructor. }
  destruct (autoCapture_aborts_on_rejected_key [("utm_source", "google")] "utm_bogus" "x"
              [("utm_medium", "cpc")] Fixture.landing_bogus eq_refl Hall eq_refl eq_refl)
    as (He & _ & Hd).
  split; [exact He|exact Hd].
Defined.

End Standalone.
